(** * Social-Media-Recommendation-System: the local fallback layer

    A shallow embedding of [app/src/utils/dataGenerator.js] (segment
    catalog, synthesizer, clustering, similarity, recommendations,
    aggregates) and of the data-source orchestration of the [App]
    component ([checkAPIHealth], [getSegmentColor], [initializeData]).

    Conventions of the embedding.
    - A JavaScript number is an exact rational ([Q]).  No operation of
      the modelled code overflows or loses an integer; rounding of
      binary floating point is not represented, and the non-finite
      values (NaN, the infinities) are represented only where the code
      can meet them: a comparison with [undefined] is [false], and
      [parseFloat undefined] is [None].
    - A property that may be [undefined] is an [option].  The records are
      those of the data model: a counter, an age or a rate holds a
      number or a printed numeral, never other text.
    - The string printed by [Number.prototype.toFixed] is kept as the
      decimal numeral it spells ([Fixed]): number of fraction digits and
      the integer made of all its digits.
    - Division is that of [Q].  Every division of the modelled code is
      evaluated with a divisor that is not zero: behind a guard
      ([union.size > 0], [count > 0]), by a constant, or by a follower
      count that is at least 100.
    - [Math.random] is a sequence [rng : nat -> Q] of outcomes read in
      call order; the position in the sequence is threaded as state.
    - An object used as a dictionary is keyed by the segment or city
      names of the data model, none of which is the name of a property
      that every object inherits ([constructor], [__proto__], ...).  The
      order in which an object lists its own properties is represented
      where the code observes it ([own_entries]). *)

From Stdlib Require Import ZArith QArith Qround Qabs Qminmax Lqa Lia.
From stdpp Require Import gmap strings list fin_maps pretty sorting.

(** ** JavaScript values used by the code *)

Module Js.

(** The numeral printed by [x.toFixed(d)]: [fx_units / 10^fx_digits]. *)
Record Fixed := mkFixed { fx_digits : nat; fx_units : Z }.

Definition pow10 (d : nat) : Q := inject_Z (10 ^ Z.of_nat d).

Definition fixed_value (f : Fixed) : Q :=
  (inject_Z (fx_units f) / pow10 (fx_digits f))%Q.

(** Nearest integer, the larger one on a tie (ECMA-262, toFixed step
    "let n be an integer for which n / 10^f - x is as close to zero as
    possible; if there are two such n, pick the larger n"). *)
Definition round_half_up (x : Q) : Z := Qfloor (x + (1 # 2))%Q.

(** [toFixed] prints a negative number as "-" followed by the
    numeral of its opposite. *)
Definition toFixed (d : nat) (x : Q) : Fixed :=
  mkFixed d (if Qle_bool 0 x
             then round_half_up (x * pow10 d)
             else (- round_half_up (- x * pow10 d))%Z).

(** [Math.round]: nearest integer, ties towards +infinity. *)
Definition round (x : Q) : Z := Qfloor (x + (1 # 2))%Q.

(** [Math.floor] *)
Definition floor (x : Q) : Q := inject_Z (Qfloor x).

(** A numeric property: a number, or a numeral string. *)
Inductive Numeric :=
| NumV (q : Q)
| StrV (f : Fixed).

(** Truthiness: [0] is falsy, a non-empty string is truthy (also
    "0.00"), [undefined] is falsy. *)
Definition truthy_q (q : Q) : bool := negb (Qeq_bool q 0).

Definition truthy_numeric (v : option Numeric) : bool :=
  match v with
  | Some (NumV q) => truthy_q q
  | Some (StrV _) => true
  | None => false
  end.

Definition truthy_str (s : option string) : bool :=
  match s with
  | Some s => negb (String.eqb s "")
  | None => false
  end.

(** [v || d] for a number [d] *)
Definition or_num (v : option Numeric) (d : Q) : Numeric :=
  match v with
  | Some w => if truthy_numeric v then w else NumV d
  | None => NumV d
  end.

(** [q || d] on numbers *)
Definition or_q (v : option Q) (d : Q) : Q :=
  match v with
  | Some q => if truthy_q q then q else d
  | None => d
  end.

(** [s || d] on strings *)
Definition or_str (s : option string) (d : string) : string :=
  match s with
  | Some t => if truthy_str s then t else d
  | None => d
  end.

(** [arr[k]] for a number [k]: [undefined] outside the array. *)
Definition index {A} (arr : list A) (k : Z) : option A :=
  if (k <? 0)%Z then None else arr !! Z.to_nat k.

(** [parseFloat] of a number or of a numeral string *)
Definition parseFloatV (v : Numeric) : Q :=
  match v with
  | NumV q => q
  | StrV f => fixed_value f
  end.

(** [parseFloat v]; [None] is NaN ([parseFloat(undefined)]). *)
Definition parseFloat (v : option Numeric) : option Q :=
  parseFloatV <$> v.

(** [a >= b] where [a] may be [undefined] or NaN: then [false]. *)
Definition ge (a : option Q) (b : Q) : bool :=
  match a with
  | Some x => Qle_bool b x
  | None => false
  end.

End Js.

(** ** Data model *)

(** The canonical user record.  Every property the code guards with
    [||] or tests for truthiness is optional. *)
Record User := mkUser {
  userId : string;
  username : string;
  age : option Q;
  gender : option string;
  city : option string;
  interests : option (list string);
  followers : option Q;
  following : option Q;
  posts : option Q;
  likes : option Q;
  comments : option Q;
  shares : option Q;
  engagementRate : option Js.Numeric;
  influenceScore : option Js.Numeric;
  segment : option string;
  segmentColor : option string;
  segmentId : option Z
}.

(** An entry of the [segments] table. *)
Record Segment := mkSegment {
  seg_id : Z;
  seg_name : string;
  seg_color : string;
  minFollowers : Q;
  minEngagement : Q
}.

Definition seg_micro   := mkSegment 0 "Micro-Influencers" "#8b5cf6" 10000 5.
Definition seg_highly  := mkSegment 1 "Highly Engaged"    "#3b82f6" 5000 4.
Definition seg_engaged := mkSegment 2 "Engaged Creators"  "#3b82f6" 5000 4.
Definition seg_growing := mkSegment 3 "Growing Accounts"  "#10b981" 2000 3.
Definition seg_active  := mkSegment 4 "Active Community"  "#f59e0b" 500 2.
Definition seg_content := mkSegment 5 "Content Creators"  "#ec4899" 1000 3.
Definition seg_casual  := mkSegment 6 "Casual Users"      "#6b7280" 0 0.
Definition seg_newbies := mkSegment 7 "Newbies"           "#6b7280" 0 0.

Definition segments : list Segment :=
  [ seg_micro; seg_highly; seg_engaged; seg_growing;
    seg_active; seg_content; seg_casual; seg_newbies ].

(** ** performClustering *)

(** The test of the loop body:
    [user.followers >= segments[i].minFollowers &&
     parseFloat(user.engagementRate) >= segments[i].minEngagement]. *)
Definition meets (user : User) (s : Segment) : bool :=
  Js.ge (followers user) (minFollowers s)
  && Js.ge (Js.parseFloat (engagementRate user)) (minEngagement s).

(** [user.segment && user.segmentColor] *)
Definition has_segment (user : User) : bool :=
  Js.truthy_str (segment user) && Js.truthy_str (segmentColor user).

(** [{ ...user, segment: s.name, segmentColor: s.color, segmentId: s.id }] *)
Definition with_segment (user : User) (s : Segment) : User :=
  {| userId := userId user; username := username user; age := age user;
     gender := gender user; city := city user; interests := interests user;
     followers := followers user; following := following user;
     posts := posts user; likes := likes user; comments := comments user;
     shares := shares user; engagementRate := engagementRate user;
     influenceScore := influenceScore user;
     segment := Some (seg_name s);
     segmentColor := Some (seg_color s);
     segmentId := Some (seg_id s) |}.

(** [segments.find(s => s.name === 'Casual Users') || segments[segments.length - 1]] *)
Definition default_segment : Segment :=
  default (default seg_newbies (last segments))
          (find (λ s, String.eqb (seg_name s) "Casual Users") segments).

(** The [for] loop with its [break]: the first entry among the indices
    [0 .. segments.length - 2] that passes the test. *)
Definition first_match (user : User) : option Segment :=
  find (meets user) (take (length segments - 1) segments).

(** The callback of [users.map] in [performClustering]. *)
Definition clusterUser (user : User) : User :=
  if has_segment user then user
  else with_segment user (default default_segment (first_match user)).

Definition performClustering (users : list User) : list User :=
  map clusterUser users.


(** ** calculateSimilarity *)

(** [new Set(user.interests || [])] *)
Definition interest_set (user : User) : gset string :=
  list_to_set (default [] (interests user)).

Definition size_q (X : gset string) : Q := inject_Z (Z.of_nat (size X)).

Definition calculateSimilarity (user1 user2 : User) : Q :=
  let interests1 := interest_set user1 in
  let interests2 := interest_set user2 in
  let intersection := filter (λ x, x ∈ interests2) interests1 in
  let union := interests1 ∪ interests2 in
  let interestSim :=
    if (0 <? size union)%nat then (size_q intersection / size_q union)%Q else 0%Q in
  let ageDiff := Qabs (Js.or_q (age user1) 25 - Js.or_q (age user2) 25) in
  let ageSim := Qmax 0 (1 - ageDiff / 50) in
  let engagementDiff :=
    Qabs (Js.parseFloatV (Js.or_num (engagementRate user1) 5)
          - Js.parseFloatV (Js.or_num (engagementRate user2) 5)) in
  let engagementSim := Qmax 0 (1 - engagementDiff / 20) in
  let cityBonus := if decide (city user1 = city user2) then (1 # 10)%Q else 0%Q in
  Qmin 1 ((45 # 100) * interestSim + (25 # 100) * ageSim
          + (2 # 10) * engagementSim + cityBonus)%Q.

(** ** generateReason *)

(** The sentence chosen by [generateReason], kept as the template and
    the values it interpolates. *)
Inductive Reason :=
| SharesInterests (n : nat) (first3 : list string)
| AlsoIn (c : option string)
| SimilarProfile (s : option string)
| SimilarAgeGroup (a : option Q)
| SharesInterest (i : option string)
| SimilarEngagement.

(** [(user1.interests || []).filter(i => (user2.interests || []).includes(i))] *)
Definition shared_interests (user1 user2 : User) : list string :=
  filter (λ i, i ∈ default [] (interests user2)) (default [] (interests user1)).

Definition generateReason (user1 user2 : User) : Reason :=
  let shared := shared_interests user1 user2 in
  if (3 <=? length shared)%nat then SharesInterests (length shared) (take 3 shared)
  else if decide (city user1 = city user2) then AlsoIn (city user2)
  else if decide (segment user1 = segment user2) then SimilarProfile (segment user1)
  else if Qle_bool (Qabs (Js.or_q (age user1) 25 - Js.or_q (age user2) 25)) 5
       then SimilarAgeGroup (age user2)
  else if (0 <? length shared)%nat then SharesInterest (head shared)
  else SimilarEngagement.

(** ** Array.prototype.sort *)

(** [sort] is stable and, for a consistent comparator, its result is
    determined by the comparator alone; insertion from the right computes
    it.  [cmp a b] is the comparator's number: [a] stays before [b] unless
    it is positive. *)
Section JsSort.
Context {A : Type} (cmp : A → A → Q).

Fixpoint sort_insert (x : A) (l : list A) : list A :=
  match l with
  | [] => [x]
  | y :: r => if Qle_bool (cmp x y) 0 then x :: y :: r else y :: sort_insert x r
  end.

Definition js_sort (l : list A) : list A := foldr sort_insert [] l.
End JsSort.

(** The comparator [(a, b) => key(b) - key(a)]: largest key first. *)
Definition descending_by {A} (key : A → Q) (a b : A) : Q := (key b - key a)%Q.

(** ** getRecommendations *)

(** [{ ...user, similarity, sharedInterests, reason }] *)
Record Recommendation := mkRecommendation {
  rec_user : User;
  similarity : Q;
  sharedInterests : list string;
  reason : Reason
}.

Definition recommend (targetUser user : User) : Recommendation :=
  {| rec_user := user;
     similarity := calculateSimilarity targetUser user;
     sharedInterests := shared_interests targetUser user;
     reason := generateReason targetUser user |}.

(** [(a, b) => b.similarity - a.similarity] *)
Definition by_similarity_desc (a b : Recommendation) : Q :=
  (similarity b - similarity a)%Q.

(** [.filter(user => user.userId !== targetUser.userId)] *)
Definition candidates (targetUser : User) (allUsers : list User) : list User :=
  filter (λ user, userId user ≠ userId targetUser) allUsers.

(** [n] is the number of records asked for. *)
Definition getRecommendations (targetUser : User) (allUsers : list User)
    (n : nat) : list Recommendation :=
  take n (js_sort by_similarity_desc
            (map (recommend targetUser) (candidates targetUser allUsers))).

(** The default value of the parameter [n]. *)
Definition getRecommendations_default (targetUser : User) (allUsers : list User) :=
  getRecommendations targetUser allUsers 10.

(** ** getSegmentStats *)

(** [[...new Set(l)]]: the distinct values, in order of first occurrence. *)
Fixpoint set_values {A} `{EqDecision A} (l : list A) : list A :=
  match l with
  | [] => []
  | x :: r => x :: filter (λ y, y ≠ x) (set_values r)
  end.

Record SegmentStat := mkSegmentStat {
  st_name : option string;
  st_color : string;
  st_count : nat;
  st_percentage : Js.Fixed;
  st_avgEngagement : Js.Fixed;
  st_avgFollowers : Z;
  st_avgPosts : Z
}.

(** [l.reduce((sum, u) => sum + f(u), 0)] *)
Definition sum_by {A} (f : A → Q) (l : list A) : Q :=
  foldl (λ sum u, (sum + f u)%Q) 0%Q l.

Definition len_q {A} (l : list A) : Q := inject_Z (Z.of_nat (length l)).

(** [(segments.find(s => s.name === segName) || { color: '#6b7280' }).color] *)
Definition catalog_color (segName : option string) : string :=
  match find (λ s, bool_decide (Some (seg_name s) = segName)) segments with
  | Some segDef => seg_color segDef
  | None => "#6b7280"
  end.

Definition segment_stat (users : list User) (segName : option string)
    : option SegmentStat :=
  let segUsers := filter (λ u, segment u = segName) users in
  let count := length segUsers in
  if (0 <? count)%nat then
    Some {| st_name := segName;
            st_color := catalog_color segName;
            st_count := count;
            st_percentage := Js.toFixed 1 (len_q segUsers / len_q users * 100);
            st_avgEngagement :=
              Js.toFixed 2
                (sum_by (λ u, Js.parseFloatV (Js.or_num (engagementRate u) 0)) segUsers
                 / len_q segUsers);
            st_avgFollowers :=
              Js.round (sum_by (λ u, Js.or_q (followers u) 0) segUsers / len_q segUsers);
            st_avgPosts :=
              Js.round (sum_by (λ u, Js.or_q (posts u) 0) segUsers / len_q segUsers) |}
  else None.

(** The property key under which [stats[segName]] is stored. *)
Definition key_of (segName : option string) : string :=
  default "undefined" segName.

Definition getSegmentStats (users : list User) : gmap string SegmentStat :=
  let segmentNames := set_values (map segment users) in
  foldl (λ stats segName,
           match segment_stat users segName with
           | Some st => <[key_of segName := st]> stats
           | None => stats
           end) ∅ segmentNames.

(** [Object.values(stats)], in the order of the map's keys. *)
Definition stat_values (stats : gmap string SegmentStat) : list SegmentStat :=
  (map_to_list stats).*2.

(** The sum of [f] over a list, in [Q]. *)
Definition sumq_with {A} (f : A → Q) (l : list A) : Q :=
  foldr (λ a total, (f a + total)%Q) 0%Q l.

(** The counts of all entries, added. *)
Definition total_count (stats : gmap string SegmentStat) : nat :=
  sum_list_with st_count (stat_values stats).

(** The percentages of all entries, read back as numbers and added. *)
Definition total_percentage (stats : gmap string SegmentStat) : Q :=
  sumq_with (λ st, Js.fixed_value (st_percentage st)) (stat_values stats).

(** ** getCityDistribution *)

(** The properties of an object in the order in which they were first
    assigned.  [bump c d] is [d[c] = (d[c] || 0) + 1]. *)
Fixpoint bump (c : string) (d : list (string * nat)) : list (string * nat) :=
  match d with
  | [] => [(c, 1%nat)]
  | (k, v) :: r => if String.eqb k c then (k, S v) :: r else (k, v) :: bump c r
  end.

(** The array index that a property name spells, if it spells one: a
    decimal numeral without leading zeros, below 2^32 - 1. *)
Definition digit_value (c : Ascii.ascii) : option N :=
  let n := Ascii.N_of_ascii c in
  if (48 <=? n)%N && (n <=? 57)%N then Some (n - 48)%N else None.

Fixpoint numeral_value (acc : N) (s : string) : option N :=
  match s with
  | EmptyString => Some acc
  | String c rest => d ← digit_value c; numeral_value (10 * acc + d)%N rest
  end.

Definition array_index (s : string) : option N :=
  match s with
  | EmptyString => None
  | String c rest =>
      d ← digit_value c;
      if (d =? 0)%N then (if decide (rest = EmptyString) then Some 0%N else None)
      else n ← numeral_value d rest;
           if (n <? 4294967295)%N then Some n else None
  end.

(** A property that is not named by an array index. *)
Definition named {V} (entry : string * V) : Prop := array_index entry.1 = None.

#[export] Instance named_dec {V} (entry : string * V) : Decision (named entry).
Proof. unfold named. apply _. Defined.

(** The order in which an object lists its own properties
    ([Object.entries], and the object that [Object.fromEntries] builds):
    those named by an array index first, in ascending order of index, then
    the others in the order of assignment. *)
Definition index_before {V} (a b : string * V) : Prop :=
  (default 0 (array_index a.1) <= default 0 (array_index b.1))%N.

#[export] Instance index_before_dec {V} (a b : string * V) : Decision (index_before a b).
Proof. unfold index_before. apply _. Defined.

Definition own_entries {V} (assigned : list (string * V)) : list (string * V) :=
  merge_sort index_before (filter (λ entry, is_Some (array_index entry.1)) assigned)
  ++ filter named assigned.

(** The returned object, as [Object.entries] lists it. *)
Definition getCityDistribution (users : list User) : list (string * nat) :=
  let distribution :=
    foldl (λ d user, bump (Js.or_str (city user) "Unknown") d) [] users in
  let sorted :=
    take 8 (js_sort (λ a b, inject_Z (Z.of_nat b.2) - inject_Z (Z.of_nat a.2))%Q
                    (own_entries distribution)) in
  own_entries sorted.

(** ** Math.random and the code that draws from it *)

(** A computation that reads outcomes of [Math.random] from [rng],
    starting at a position and returning the next one. *)
Definition Rand (A : Type) : Type := (nat → Q) → nat → A * nat.

#[export] Instance rand_ret : MRet Rand := λ A a _ i, (a, i).
#[export] Instance rand_bind : MBind Rand :=
  λ A B f m rng i, let '(a, j) := m rng i in f a rng j.

(** [Math.random()] *)
Definition random : Rand Q := λ rng i, (rng i, S i).

(** The value computed from position [0]. *)
Definition run {A} (m : Rand A) (rng : nat → Q) : A := (m rng 0%nat).1.

(** [Math.floor(Math.random() * k) + b] *)
Definition random_int (k b : Q) : Rand Q :=
  r ← random; mret (Js.floor (r * k) + b)%Q.

(** [arr[Math.floor(Math.random() * arr.length)]] *)
Definition random_element {A} (arr : list A) : Rand (option A) :=
  r ← random; mret (Js.index arr (Qfloor (r * len_q arr))).

Definition interests_vocabulary : list string :=
  [ "technology"; "fashion"; "travel"; "food"; "fitness"; "gaming";
    "music"; "art"; "sports"; "photography"; "business"; "education" ].

Definition cities : list string :=
  [ "New York"; "Los Angeles"; "London"; "Mumbai"; "Tokyo"; "Paris";
    "Berlin"; "Sydney"; "Toronto"; "Dubai"; "Singapore" ].

Definition genders : list string := [ "Male"; "Female"; "Non-binary" ].

(** ** generateUserData *)

(** The inner loop, [numInterests] rounds left.  An index outside the
    vocabulary cannot be drawn from an outcome in [0, 1); the model
    leaves the list as it is there. *)
Fixpoint pick_interests (numInterests : nat) (userInterests : list string)
    : Rand (list string) :=
  match numInterests with
  | O => mret userInterests
  | S k =>
      interest ← random_element interests_vocabulary;
      pick_interests k
        match interest with
        | Some i => if bool_decide (i ∈ userInterests) then userInterests
                    else userInterests ++ [i]
        | None => userInterests
        end
  end.

(** [String(k).padStart(4, '0')] *)
Definition pad4 (s : string) : string :=
  String.concat "" (replicate (4 - String.length s) "0") +:+ s.

(** One round of the outer loop, for the loop index [i]. *)
Definition generateUser (i : nat) : Rand User :=
  numInterests ← (r ← random; mret (Qfloor (r * 4) + 2)%Z);
  userInterests ← pick_interests (Z.to_nat numInterests) [];
  followers ← random_int 50000 100;
  following ← random_int 2000 50;
  posts ← random_int 500 10;
  likes ← (r ← random; mret (followers * ((5 # 100) + r * (1 # 10)))%Q);
  age ← random_int 40 18;
  gender ← random_element genders;
  city ← random_element cities;
  influence ← (r ← random; mret (r * (1 # 2) + (3 # 10))%Q);
  mret {| userId := "U" +:+ pad4 (pretty (i + 1)%nat);
          username := "user_" +:+ pretty (i + 1)%nat;
          age := Some age;
          gender := gender;
          city := city;
          interests := Some userInterests;
          followers := Some followers;
          following := Some following;
          posts := Some posts;
          likes := Some (Js.floor likes);
          comments := Some (Js.floor (likes * (15 # 100)));
          shares := Some (Js.floor (likes * (5 # 100)));
          engagementRate :=
            Some (Js.StrV (Js.toFixed 2
              ((likes + likes * (15 # 100) + likes * (5 # 100)) / followers * 100)));
          influenceScore := Some (Js.StrV (Js.toFixed 3 influence));
          segment := None;
          segmentColor := None;
          segmentId := None |}.

(** The outer loop from index [i], [count] rounds left. *)
Fixpoint synthesize (count i : nat) : Rand (list User) :=
  match count with
  | O => mret []
  | S c => user ← generateUser i; rest ← synthesize c (S i); mret (user :: rest)
  end.

(** [kaggleData] is the module variable, [None] for [null]. *)
Definition generateUserData (kaggleData : option (list User)) (numUsers : nat)
    : Rand (list User) :=
  match kaggleData with
  | Some data =>
      if (0 <? length data)%nat then mret (take numUsers data)
      else synthesize numUsers 0
  | None => synthesize numUsers 0
  end.

(** ** getEngagementByHour, getWeeklyTrend *)

Record HourPoint := mkHourPoint { hp_hour : nat; hp_engagement : Q }.

Definition baseEngagement (i : nat) : Q :=
  let b := 100%Q in
  let b := if (9 <=? i)%nat && (i <=? 11)%nat then 250%Q else b in
  let b := if (12 <=? i)%nat && (i <=? 14)%nat then 200%Q else b in
  let b := if (18 <=? i)%nat && (i <=? 22)%nat then 350%Q else b in
  let b := if (0 <=? i)%nat && (i <=? 6)%nat then 50%Q else b in
  b.

Fixpoint hours_from (count i : nat) : Rand (list HourPoint) :=
  match count with
  | O => mret []
  | S c =>
      r ← random;
      rest ← hours_from c (S i);
      mret (mkHourPoint i (baseEngagement i + Js.floor (r * 50))%Q :: rest)
  end.

Definition getEngagementByHour : Rand (list HourPoint) := hours_from 24 0.

Record DayPoint := mkDayPoint { dp_day : string; dp_engagement : Q; dp_followers : Q }.

Fixpoint week_of (days : list string) : Rand (list DayPoint) :=
  match days with
  | [] => mret []
  | day :: more =>
      engagement ← random_int 30 70;
      followers ← random_int 500 100;
      rest ← week_of more;
      mret (mkDayPoint day engagement followers :: rest)
  end.

Definition getWeeklyTrend : Rand (list DayPoint) :=
  week_of [ "Mon"; "Tue"; "Wed"; "Thu"; "Fri"; "Sat"; "Sun" ].

(** ** The App component: remote adapter and orchestration *)

(** [getSegmentColor] of the component: [colors[segmentName] || '#6b7280'] *)
Definition segment_colors : gmap string string :=
  list_to_map
    [ ("Micro-Influencers", "#f87171");
      ("Engaged Creators", "#8b5cf6");
      ("Rising Stars", "#06b6d4");
      ("Active Community", "#10b981");
      ("Casual Browsers", "#f59e0b");
      ("Highly Engaged", "#3b82f6");
      ("Growing Accounts", "#10b981") ].

Definition getSegmentColor (segmentName : option string) : string :=
  Js.or_str (segment_colors !! key_of segmentName) "#6b7280".

(** [getSegmentColor] of [apiClient.js], which knows three names more. *)
Module ApiClient.
Definition segment_colors : gmap string string :=
  list_to_map
    [ ("Micro-Influencers", "#f87171");
      ("Engaged Creators", "#8b5cf6");
      ("Rising Stars", "#06b6d4");
      ("Active Community", "#10b981");
      ("Casual Browsers", "#f59e0b");
      ("Highly Engaged", "#3b82f6");
      ("Growing Accounts", "#10b981");
      ("Content Creators", "#ec4899");
      ("Casual Users", "#6b7280");
      ("Newbies", "#9ca3af") ].

Definition getSegmentColor (segmentName : option string) : string :=
  Js.or_str (segment_colors !! key_of segmentName) "#6b7280".
End ApiClient.

(** What an awaited call does: it returns a value or it throws. *)
Inductive Outcome (A : Type) :=
| Returned (a : A)
| Thrown.
Arguments Returned {A} a.
Arguments Thrown {A}.

#[export] Instance outcome_ret : MRet Outcome := λ A a, Returned a.
#[export] Instance outcome_bind : MBind Outcome :=
  λ A B f m, match m with Returned a => f a | Thrown => Thrown end.

(** A value received from the backend and passed on as it is. *)
#[local] Unset Elimination Schemes.
Inductive Json :=
| JNull
| JNumber (q : Q)
| JString (s : string)
| JArray (l : list Json)
| JObject (l : list (string * Json)).
#[local] Set Elimination Schemes.

(** A piece of state that holds either a value computed by the local
    functions or one obtained from the backend. *)
Inductive Data (L : Type) :=
| Local (l : L)
| Remote (j : Json).
Arguments Local {L} l.
Arguments Remote {L} j.

Module App.

Inductive Status :=
| NoStatus
| ConnectedToBackend
| UsingLocalGeneration
| UsingLocalFallback.

(** The [useState] cells of the component. *)
Record State := mkState {
  loading : bool;
  loadingProgress : nat;
  loadingStatus : Status;
  users : list User;
  selectedUser : option User;
  recommendations : Data (list Recommendation);
  segmentStats : Data (gmap string SegmentStat);
  cityDistribution : Data (list (string * nat));
  engagementByHour : Data (list HourPoint);
  weeklyTrend : Data (list DayPoint);
  usingAPI : bool
}.

Definition initial : State :=
  mkState true 0 NoStatus [] None (Local []) (Local ∅) (Local []) (Local [])
          (Local []) false.

Definition setLoading v (s : State) :=
  mkState v (loadingProgress s) (loadingStatus s) (users s) (selectedUser s)
    (recommendations s) (segmentStats s) (cityDistribution s)
    (engagementByHour s) (weeklyTrend s) (usingAPI s).
Definition setLoadingProgress v (s : State) :=
  mkState (loading s) v (loadingStatus s) (users s) (selectedUser s)
    (recommendations s) (segmentStats s) (cityDistribution s)
    (engagementByHour s) (weeklyTrend s) (usingAPI s).
Definition setLoadingStatus v (s : State) :=
  mkState (loading s) (loadingProgress s) v (users s) (selectedUser s)
    (recommendations s) (segmentStats s) (cityDistribution s)
    (engagementByHour s) (weeklyTrend s) (usingAPI s).
Definition setUsers v (s : State) :=
  mkState (loading s) (loadingProgress s) (loadingStatus s) v (selectedUser s)
    (recommendations s) (segmentStats s) (cityDistribution s)
    (engagementByHour s) (weeklyTrend s) (usingAPI s).
Definition setSelectedUser v (s : State) :=
  mkState (loading s) (loadingProgress s) (loadingStatus s) (users s) v
    (recommendations s) (segmentStats s) (cityDistribution s)
    (engagementByHour s) (weeklyTrend s) (usingAPI s).
Definition setRecommendations v (s : State) :=
  mkState (loading s) (loadingProgress s) (loadingStatus s) (users s)
    (selectedUser s) v (segmentStats s) (cityDistribution s)
    (engagementByHour s) (weeklyTrend s) (usingAPI s).
Definition setSegmentStats v (s : State) :=
  mkState (loading s) (loadingProgress s) (loadingStatus s) (users s)
    (selectedUser s) (recommendations s) v (cityDistribution s)
    (engagementByHour s) (weeklyTrend s) (usingAPI s).
Definition setCityDistribution v (s : State) :=
  mkState (loading s) (loadingProgress s) (loadingStatus s) (users s)
    (selectedUser s) (recommendations s) (segmentStats s) v
    (engagementByHour s) (weeklyTrend s) (usingAPI s).
Definition setEngagementByHour v (s : State) :=
  mkState (loading s) (loadingProgress s) (loadingStatus s) (users s)
    (selectedUser s) (recommendations s) (segmentStats s)
    (cityDistribution s) v (weeklyTrend s) (usingAPI s).
Definition setWeeklyTrend v (s : State) :=
  mkState (loading s) (loadingProgress s) (loadingStatus s) (users s)
    (selectedUser s) (recommendations s) (segmentStats s)
    (cityDistribution s) (engagementByHour s) v (usingAPI s).
Definition setUsingAPI v (s : State) :=
  mkState (loading s) (loadingProgress s) (loadingStatus s) (users s)
    (selectedUser s) (recommendations s) (segmentStats s)
    (cityDistribution s) (engagementByHour s) (weeklyTrend s) v.

(** The backend as the component meets it: what each awaited request
    does.  [probe] is [fetch(API_URL + '/')]: the [ok] flag of the
    response, or a throw. *)
Record Backend := mkBackend {
  probe : Outcome bool;
  fetchUsersFromAPI : Outcome (list User);
  fetchSegmentStatsFromAPI : Outcome Json;
  fetchCitiesFromAPI : Outcome Json;
  fetchHourlyEngagementFromAPI : Outcome Json;
  fetchWeeklyTrendFromAPI : Outcome Json;
  fetchRecommendationsFromAPI : string → Outcome Json
}.

(** [try { ...; return response.ok } catch { return false }] *)
Definition checkAPIHealth (be : Backend) : bool :=
  match probe be with
  | Returned ok => ok
  | Thrown => false
  end.

(** [getLocalRecommendations(clusteredUsers[0], clusteredUsers)]: with
    no first user the collection is empty and the filter callback is
    never called. *)
Definition getLocalRecommendations (target : option User) (allUsers : list User)
    : list Recommendation :=
  match target with
  | Some targetUser => getRecommendations_default targetUser allUsers
  | None => []
  end.

(** The five awaited requests of the [if (apiAvailable)] branch. *)
Definition remote_sequence (be : Backend)
    : Outcome (list User * Json * Json * Json * Json) :=
  clusteredUsers ← fetchUsersFromAPI be;
  stats ← fetchSegmentStatsFromAPI be;
  cities ← fetchCitiesFromAPI be;
  hourly ← fetchHourlyEngagementFromAPI be;
  weekly ← fetchWeeklyTrendFromAPI be;
  mret (clusteredUsers, stats, cities, hourly, weekly).

(** The statements of the [catch] block. *)
Definition fallback (kaggleData : option (list User)) (s : State) : Rand State :=
  let s := setLoadingStatus UsingLocalFallback s in
  rawUsers ← generateUserData kaggleData 500;
  let clusteredUsers := performClustering rawUsers in
  let s := setUsers clusteredUsers s in
  let s := setSelectedUser (head clusteredUsers) s in
  let s := setSegmentStats (Local (getSegmentStats clusteredUsers)) s in
  let s := setCityDistribution (Local (getCityDistribution clusteredUsers)) s in
  hourly ← getEngagementByHour;
  let s := setEngagementByHour (Local hourly) s in
  weekly ← getWeeklyTrend;
  let s := setWeeklyTrend (Local weekly) s in
  let s := setRecommendations
             (Local (getLocalRecommendations (head clusteredUsers) clusteredUsers)) s in
  let s := setLoadingProgress 100 s in
  mret (setLoading false s).

(** [initializeData], up to and including the timer callback that
    clears [loading]. *)
Definition initializeData (be : Backend) (kaggleData : option (list User))
    (s : State) : Rand State :=
  let s := setLoading true s in
  let s := setLoadingProgress 0 s in
  let s := setLoadingProgress 5 s in
  let apiAvailable := checkAPIHealth be in
  if apiAvailable then
    let s := setLoadingStatus ConnectedToBackend s in
    let s := setUsingAPI true s in
    match remote_sequence be with
    | Thrown => fallback kaggleData s
    | Returned (clusteredUsers, stats, cities, hourly, weekly) =>
        let s := setLoadingProgress 80 s in
        let s := setUsers clusteredUsers s in
        let s := setSelectedUser (head clusteredUsers) s in
        let s := setSegmentStats (Remote stats) s in
        let s := setCityDistribution (Remote cities) s in
        let s := setEngagementByHour (Remote hourly) s in
        let s := setWeeklyTrend (Remote weekly) s in
        let s := setLoadingProgress 95 s in
        let s :=
          match head clusteredUsers with
          | Some first =>
              match fetchRecommendationsFromAPI be (userId first) with
              | Returned recs => setRecommendations (Remote recs) s
              | Thrown =>
                  setRecommendations
                    (Local (getLocalRecommendations (head clusteredUsers) clusteredUsers)) s
              end
          | None =>
              setRecommendations
                (Local (getLocalRecommendations (head clusteredUsers) clusteredUsers)) s
          end in
        let s := setLoadingProgress 100 s in
        mret (setLoading false s)
    end
  else
    let s := setLoadingStatus UsingLocalGeneration s in
    let s := setUsingAPI false s in
    rawUsers ← generateUserData kaggleData 1000;
    let clusteredUsers := performClustering rawUsers in
    hourly ← getEngagementByHour;
    weekly ← getWeeklyTrend;
    let s := setLoadingProgress 90 s in
    let s := setUsers clusteredUsers s in
    let s := setSelectedUser (head clusteredUsers) s in
    let s := setSegmentStats (Local (getSegmentStats clusteredUsers)) s in
    let s := setCityDistribution (Local (getCityDistribution clusteredUsers)) s in
    let s := setEngagementByHour (Local hourly) s in
    let s := setWeeklyTrend (Local weekly) s in
    let s := setLoadingProgress 95 s in
    let s := setRecommendations
               (Local (getLocalRecommendations (head clusteredUsers) clusteredUsers)) s in
    let s := setLoadingProgress 100 s in
    mret (setLoading false s).

End App.

(** ** Sample records *)

(** A synthesized-looking record: no segment yet. *)
Definition sample_user (id : string) (a f : Q) (rate : Z) (c : string)
    (tags : list string) : User :=
  {| userId := id; username := "user_" +:+ id; age := Some a;
     gender := Some "Female"; city := Some c; interests := Some tags;
     followers := Some f; following := Some 50%Q; posts := Some 10%Q;
     likes := Some 0%Q; comments := Some 0%Q; shares := Some 0%Q;
     engagementRate := Some (Js.StrV (Js.mkFixed 2 rate));
     influenceScore := Some (Js.StrV (Js.mkFixed 3 500));
     segment := None; segmentColor := None; segmentId := None |}.

(** The same record as an external source would deliver it, with a
    segment and a colour of its own. *)
Definition labelled (user : User) (name colour : string) : User :=
  {| userId := userId user; username := username user; age := age user;
     gender := gender user; city := city user; interests := interests user;
     followers := followers user; following := following user;
     posts := posts user; likes := likes user; comments := comments user;
     shares := shares user; engagementRate := engagementRate user;
     influenceScore := influenceScore user;
     segment := Some name; segmentColor := Some colour; segmentId := None |}.

Definition U1 := sample_user "U1" 30 20000 600 "Paris" ["tech"; "art"].
Definition U2 := sample_user "U2" 30 20000 600 "Tokyo" ["tech"; "fashion"].
Definition U3 := sample_user "U3" 30 100 100 "Dubai" ["food"].

(** Sixteen records that [performClustering] spreads over four
    segments: one, one, one and thirteen. *)
Definition crowd16 : list User :=
  performClustering
    (U1 :: sample_user "H1" 41 6000 450 "Paris" ["art"]
        :: sample_user "G1" 52 2500 350 "Tokyo" ["food"]
        :: replicate 13 U3).

(** ** Vocabulary of the statements about the synthesizer *)

(** Every outcome of [Math.random] lies in [0, 1). *)
Definition unit_range (rng : nat → Q) : Prop := ∀ i, (0 <= rng i < 1)%Q.

(** A number is present and lies in [lo, hi). *)
Definition in_range (lo hi : Q) (v : option Q) : Prop :=
  ∃ q, v = Some q ∧ (lo <= q < hi)%Q.

(** A number is present and lies in [lo, hi]. *)
Definition in_closed_range (lo hi : Q) (v : option Q) : Prop :=
  ∃ q, v = Some q ∧ (lo <= q <= hi)%Q.

(** The interests list is present, has between [lo] and [hi] tags and
    no tag twice. *)
Definition tags_between (lo hi : nat) (user : User) : Prop :=
  ∃ tags, interests user = Some tags ∧ lo ≤ length tags ≤ hi ∧ NoDup tags.


(** Outcomes that are 0 except at one position. *)
Definition spike (position : nat) (value : Q) : nat → Q :=
  λ i, if (i =? position)%nat then value else 0%Q.

(** Draws 1 and 2 pick the same tag and draw 10, the influence score's,
    is 0.9995. *)
Definition rng_high_influence : nat → Q := spike 10 (9995 # 10000).

(** Draw 6, the likes factor's, is 0.09: 5.9 likes for 100 followers. *)
Definition rng_fractional_likes : nat → Q := spike 6 (9 # 100).

(** ** Vocabulary of the statements about [initializeData] *)

(** The local synthesis and approximation sequence for a population
    size, with nothing loaded into [kaggleData] (the component never
    calls [loadKaggleData]): the clustered users, the hourly curve and
    the weekly trend, drawn in this order. *)
Definition local_data (numUsers : nat)
    : Rand (list User * list HourPoint * list DayPoint) :=
  rawUsers ← generateUserData None numUsers;
  hourly ← getEngagementByHour;
  weekly ← getWeeklyTrend;
  mret (performClustering rawUsers, hourly, weekly).

(** The state holds exactly the dataset that the local functions
    compute from [data]. *)
Definition holds_local_data (s : App.State)
    (data : list User * list HourPoint * list DayPoint) : Prop :=
  App.users s = data.1.1
  ∧ App.selectedUser s = head data.1.1
  ∧ App.segmentStats s = Local (getSegmentStats data.1.1)
  ∧ App.cityDistribution s = Local (getCityDistribution data.1.1)
  ∧ App.engagementByHour s = Local data.1.2
  ∧ App.weeklyTrend s = Local data.2
  ∧ App.recommendations s
    = Local (App.getLocalRecommendations (head data.1.1) data.1.1).

(** Nothing of the dataset is missing or empty. *)
Definition complete_dataset (s : App.State) : Prop :=
  App.users s ≠ []
  ∧ is_Some (App.selectedUser s)
  ∧ (∃ stats, App.segmentStats s = Local stats ∧ stats ≠ ∅)
  ∧ (∃ dist, App.cityDistribution s = Local dist ∧ dist ≠ [])
  ∧ (∃ hourly, App.engagementByHour s = Local hourly ∧ length hourly = 24%nat)
  ∧ (∃ weekly, App.weeklyTrend s = Local weekly ∧ length weekly = 7%nat)
  ∧ (∃ recs, App.recommendations s = Local recs ∧ recs ≠ []).

(** A backend that answers every request but the one for
    recommendations. *)
Definition backend_without_recommendations : App.Backend :=
  {| App.probe := Returned true;
     App.fetchUsersFromAPI :=
       Returned [labelled U1 "Rising Stars" "#06b6d4";
                 labelled U2 "Rising Stars" "#06b6d4"];
     App.fetchSegmentStatsFromAPI := Returned (JObject []);
     App.fetchCitiesFromAPI := Returned (JObject []);
     App.fetchHourlyEngagementFromAPI := Returned (JArray []);
     App.fetchWeeklyTrendFromAPI := Returned (JArray []);
     App.fetchRecommendationsFromAPI := λ _, Thrown |}.

(** A backend whose probe throws a network error. *)
Definition backend_unreachable : App.Backend :=
  {| App.probe := Thrown;
     App.fetchUsersFromAPI := Thrown;
     App.fetchSegmentStatsFromAPI := Thrown;
     App.fetchCitiesFromAPI := Thrown;
     App.fetchHourlyEngagementFromAPI := Thrown;
     App.fetchWeeklyTrendFromAPI := Thrown;
     App.fetchRecommendationsFromAPI := λ _, Thrown |}.

(** A backend that answers the probe and the users request and fails
    on the segment statistics. *)
Definition backend_failing_midway : App.Backend :=
  {| App.probe := Returned true;
     App.fetchUsersFromAPI := Returned [labelled U1 "Rising Stars" "#06b6d4"];
     App.fetchSegmentStatsFromAPI := Thrown;
     App.fetchCitiesFromAPI := Returned (JObject []);
     App.fetchHourlyEngagementFromAPI := Returned (JArray []);
     App.fetchWeeklyTrendFromAPI := Returned (JArray []);
     App.fetchRecommendationsFromAPI := λ _, Returned (JArray []) |}.

(** ** Proof steps used throughout *)

(** Closed decidable goals and hypotheses, by evaluation. *)
Ltac decide_holds := apply (bool_decide_unpack _); vm_compute; exact I.
Ltac decide_fails H :=
  apply (bool_decide_pack _) in H; vm_compute in H; destruct H.

(** Membership in a list that is written out. *)
Ltac listed :=
  cbn [default]; rewrite !elem_of_cons; repeat first [left; reflexivity | right].

(** Unfolds the draws of one step of a [Rand] computation. *)
Ltac step_rand :=
  unfold random_int, random_element; unfold mbind, rand_bind, random, mret, rand_ret;
  cbn beta iota; cbn [fst snd].

(** * Further definitions *)

From Stdlib Require Import Ascii.

(** ** The four terms of the similarity score *)

(** [interestSim], [ageSim], [engagementSim] and [cityBonus] of
    [calculateSimilarity], each as a function of the two records. *)
Definition interestSim (user1 user2 : User) : Q :=
  let interests1 := interest_set user1 in
  let interests2 := interest_set user2 in
  let intersection := filter (λ x, x ∈ interests2) interests1 in
  let union := interests1 ∪ interests2 in
  if (0 <? size union)%nat then (size_q intersection / size_q union)%Q else 0%Q.

Definition ageSim (user1 user2 : User) : Q :=
  Qmax 0 (1 - Qabs (Js.or_q (age user1) 25 - Js.or_q (age user2) 25) / 50).

Definition engagementSim (user1 user2 : User) : Q :=
  Qmax 0 (1 - Qabs (Js.parseFloatV (Js.or_num (engagementRate user1) 5)
                    - Js.parseFloatV (Js.or_num (engagementRate user2) 5)) / 20).

Definition cityBonus (user1 user2 : User) : Q :=
  if decide (city user1 = city user2) then (1 # 10)%Q else 0%Q.

(** ** Reading identifiers back *)

(** A numeral without its leading zeros. *)
Fixpoint strip_zeros (s : string) : string :=
  match s with
  | String "0"%char rest => strip_zeros rest
  | _ => s
  end.

(** The identifier given to the record of loop index [i]. *)
Definition synthetic_id (i : nat) : string := "U" +:+ pad4 (pretty (i + 1)%nat).

(** ** Vocabulary of the statements about [getCityDistribution] *)

(** [user.city || 'Unknown'] *)
Definition city_key (user : User) : string := Js.or_str (city user) "Unknown".

(** The number of users filed under a city. *)
Definition city_count (c : string) (users : list User) : nat :=
  length (filter (λ u, city_key u = c) users).

(** [distribution[c] || 0] *)
Fixpoint tally_of (c : string) (d : list (string * nat)) : nat :=
  match d with
  | [] => 0
  | (k, v) :: r => if String.eqb k c then v else tally_of c r
  end.

(** ** The rest of the App component *)

(** [handleUserSelect(user)]: [users] and [usingAPI] are the cells of
    the state the handler was rendered with. *)
Definition handleUserSelect (be : App.Backend) (user : User) (s : App.State)
    : App.State :=
  let s' := App.setSelectedUser (Some user) s in
  if App.usingAPI s then
    match App.fetchRecommendationsFromAPI be (userId user) with
    | Returned recs => App.setRecommendations (Remote recs) s'
    | Thrown =>
        App.setRecommendations
          (Local (App.getLocalRecommendations (Some user) (App.users s))) s'
    end
  else
    App.setRecommendations
      (Local (App.getLocalRecommendations (Some user) (App.users s))) s'.

(** [handleRefresh] *)
Definition handleRefresh (be : App.Backend) (kaggleData : option (list User))
    (s : App.State) : Rand App.State :=
  App.initializeData be kaggleData s.

(** A backend that answers every request. *)
Definition backend_up : App.Backend :=
  {| App.probe := Returned true;
     App.fetchUsersFromAPI := Returned [labelled U1 "Rising Stars" "#06b6d4"];
     App.fetchSegmentStatsFromAPI := Returned (JObject []);
     App.fetchCitiesFromAPI := Returned (JObject []);
     App.fetchHourlyEngagementFromAPI := Returned (JArray []);
     App.fetchWeeklyTrendFromAPI := Returned (JArray []);
     App.fetchRecommendationsFromAPI := λ _, Returned (JArray [JString "remote"]) |}.

(** ** The remote adapter of the component *)

(** What [fetch] resolves to: the [ok] flag of the response and what
    reading its body as JSON gives. *)
Record Response (A : Type) := mkResponse { resp_ok : bool; resp_json : Outcome A }.
Arguments mkResponse {A} resp_ok resp_json.
Arguments resp_ok {A} r.
Arguments resp_json {A} r.

(** A row of [/users] as the backend sends it. *)
Record ApiUser := mkApiUser {
  user_id : string;
  api_username : string;
  api_age : option Q;
  api_gender : option string;
  api_city : option string;
  api_interests : option string;
  follower_count : option Q;
  following_count : option Q;
  posts_count : option Q;
  likes_received : option Q;
  comments_received : option Q;
  api_shares : option Q;
  engagement_rate : option Q;
  influence_score : option Q;
  segment_name : option string;
  api_segment : option Z
}.

Module Remote.
Section Adapter.
(** The string methods are left open: [capitalize s] stands for
    [s.charAt(0).toUpperCase() + s.slice(1)] and [split_trim s] for
    [s.split(',').map(i => i.trim())]. *)
Variable capitalize : string → string.
Variable split_trim : string → list string.

(** [x?.toFixed(d) || '0']: the numeral of [x], or the string "0". *)
Definition fixed_or_zero (d : nat) (x : option Q) : Js.Numeric :=
  match x with
  | Some q => Js.StrV (Js.toFixed d q)
  | None => Js.StrV (Js.mkFixed 0 0)
  end.

(** The callback of [users.map] in [fetchUsersFromAPI]. *)
Definition mapUser (user : ApiUser) : User :=
  {| userId := user_id user;
     username := api_username user;
     age := api_age user;
     gender := api_gender user;
     city := Some (if Js.truthy_str (api_city user)
                   then capitalize (default "" (api_city user)) else "Unknown");
     interests := Some (if Js.truthy_str (api_interests user)
                        then split_trim (default "" (api_interests user)) else []);
     followers := Some (Js.or_q (follower_count user) 0);
     following := Some (Js.or_q (following_count user) 0);
     posts := Some (Js.or_q (posts_count user) 0);
     likes := Some (Js.or_q (likes_received user) 0);
     comments :=
       Some (Js.or_q (comments_received user)
                     (Js.floor (Js.or_q (likes_received user) 0 * (15 # 100))));
     shares :=
       Some (Js.or_q (api_shares user)
                     (Js.floor (Js.or_q (likes_received user) 0 * (5 # 100))));
     engagementRate := Some (fixed_or_zero 2 (engagement_rate user));
     influenceScore := Some (fixed_or_zero 3 (influence_score user));
     segment := Some (Js.or_str (segment_name user) "Unknown");
     segmentColor := Some (getSegmentColor (segment_name user));
     segmentId := api_segment user |}.

(** [fetchUsersFromAPI]: a response that is not [ok] throws, as does a
    failure of [fetch] or of reading the body. *)
Definition fetchUsersFromAPI (fetched : Outcome (Response (list ApiUser)))
    : Outcome (list User) :=
  match fetched with
  | Returned response =>
      if resp_ok response
      then users ← resp_json response; mret (map mapUser users)
      else Thrown
  | Thrown => Thrown
  end.
End Adapter.
End Remote.

(** A row without a segment and without rates. *)
Definition bare_row (id : string) : ApiUser :=
  mkApiUser id ("user_" +:+ id) None None None None None None None None None None
            None None None None.

(** ** AlertCard *)

(** [a > b] where [a] may be NaN: then [false]. *)
Definition js_gt (a : option Q) (b : Q) : bool :=
  match a with
  | Some x => negb (Qle_bool x b)
  | None => false
  end.

(** The three sentences of the card, with the values they interpolate. *)
Inductive AlertMessage :=
| NoMessage
| Exceptional (username : string) (engagement : option Q)
| StrongGrowth (username : string)
| Boost (username : string) (engagement : option Q).

Record Alert := mkAlert {
  al_title : string;
  al_message : AlertMessage;
  al_type : string;
  al_color : option string
}.

(** [getAlertData] of [AlertCard]; [None] is a [selectedUser] that is
    [null] or [undefined]. *)
Definition getAlertData (selectedUser : option User) : Alert :=
  match selectedUser with
  | None => mkAlert "Loading..." NoMessage "info" None
  | Some user =>
      let engagement := Js.parseFloat (engagementRate user) in
      if js_gt engagement 8 then
        mkAlert "HIGH PERFORMER" (Exceptional (username user) engagement)
                "success" (Some "#10b981")
      else if js_gt engagement 5 then
        mkAlert "GROWING INFLUENCE" (StrongGrowth (username user))
                "info" (Some "#3b82f6")
      else
        mkAlert "OPTIMIZATION NEEDED" (Boost (username user) engagement)
                "warning" (Some "#f59e0b")
  end.

(** The segment that the follower count alone selects. *)
Definition segment_by_followers (f : Q) : Segment :=
  if Qle_bool 10000 f then seg_micro
  else if Qle_bool 5000 f then seg_highly
  else if Qle_bool 2000 f then seg_growing
  else if Qle_bool 500 f then seg_active
  else seg_casual.

(** ** UserMapCard *)

(** [Object.entries(cityDistribution || {}).slice(0, 6)] *)
Definition shown_cities (cityDistribution : list (string * nat)) : list (string * nat) :=
  take 6 cityDistribution.

(** [cities.reduce((a, [_, c]) => a + c, 0)] *)
Definition covered (cities : list (string * nat)) : nat :=
  foldl (λ a entry, a + entry.2)%nat 0%nat cities.

(** [Math.max(...cities.map(([_, count]) => count), 1)] *)
Definition maxCount (cities : list (string * nat)) : nat :=
  foldr Nat.max 1%nat (map snd cities).

(** The coverage figure of the footer; [None] stands for what is printed
    when [totalUsers] is 0, which is not a numeral. *)
Definition coverage (cityDistribution : list (string * nat)) (users : list User)
    : option Js.Fixed :=
  let cities := shown_cities cityDistribution in
  let totalUsers := length users in
  if (totalUsers =? 0)%nat then None
  else Some (Js.toFixed 0 (inject_Z (Z.of_nat (covered cities))
                           / inject_Z (Z.of_nat totalUsers) * 100)).

(** ** UserSelectionCard *)

(** [s.includes(sub)] *)
Fixpoint includes (s sub : string) : bool :=
  String.prefix sub s
  || match s with
     | EmptyString => false
     | String _ rest => includes rest sub
     end.

Module Selection.
Section Card.
(** [toLowerCase] is left open. *)
Variable toLowerCase : string → string.

(** The callback of [users.filter]; [filterSegment] is 'All' at first
    and then an element of [uniqueSegments], which is [undefined] for
    users without a segment. *)
Definition matches (searchQuery : string) (filterSegment : option string)
    (user : User) : bool :=
  let matchesSearch := includes (toLowerCase (username user)) (toLowerCase searchQuery) in
  let matchesSegment :=
    bool_decide (filterSegment = Some "All")
    || bool_decide (segment user = filterSegment) in
  matchesSearch && matchesSegment.

Definition filteredUsers (users : list User) (searchQuery : string)
    (filterSegment : option string) : list User :=
  take 50 (filter (λ user, matches searchQuery filterSegment user = true) users).

Definition uniqueSegments (users : list User) : list (option string) :=
  set_values (map segment users).
End Card.
End Selection.

(** ** RecommendationsCard *)

(** [recommendations?.slice(0, 10) || []] *)
Definition topRecs (recommendations : option (list Recommendation))
    : list Recommendation :=
  match recommendations with
  | Some recs => take 10 recs
  | None => []
  end.

(** [((rec?.similarity || 0) * 100).toFixed(0)], the figure printed
    before the percent sign. *)
Definition compatibility (rec : option Recommendation) : Js.Fixed :=
  Js.toFixed 0 (Js.or_q (similarity <$> rec) 0 * 100).

(** [topRecs[0]?.username || 'N/A'] *)
Definition top_match (recommendations : option (list Recommendation)) : string :=
  Js.or_str ((λ rec, username (rec_user rec)) <$> head (topRecs recommendations)) "N/A".

(** * Properties *)


(** ** Segment assignment *)

Lemma meets_engaged_highly user : meets user seg_engaged = meets user seg_highly.
Proof. reflexivity. Qed.


(** The loop, entry by entry. *)
Lemma first_match_cases user :
  first_match user =
    if meets user seg_micro then Some seg_micro
    else if meets user seg_highly then Some seg_highly
    else if meets user seg_engaged then Some seg_engaged
    else if meets user seg_growing then Some seg_growing
    else if meets user seg_active then Some seg_active
    else if meets user seg_content then Some seg_content
    else if meets user seg_casual then Some seg_casual
    else None.
Proof. reflexivity. Qed.


Lemma default_segment_casual : default_segment = seg_casual.
Proof. reflexivity. Qed.

Lemma has_segment_false user :
  Js.truthy_str (segment user) = false → has_segment user = false.
Proof. unfold has_segment. by intros ->. Qed.

Lemma clusterUser_computed user :
  has_segment user = false →
  clusterUser user = with_segment user (default seg_casual (first_match user)).
Proof. unfold clusterUser. by intros ->. Qed.

Lemma performClustering_lookup users i :
  performClustering users !! i = clusterUser <$> users !! i.
Proof. unfold performClustering. apply list_lookup_fmap. Qed.



(** The spec's scenario: U1 and U2 land in the first entry, U3 in the
    catch-all. *)
Example clustering_scenario :
  map segment (performClustering [U1; U2; U3])
  = [Some "Micro-Influencers"; Some "Micro-Influencers"; Some "Casual Users"].
Proof. reflexivity. Qed.

(** The loop never stops at 'Engaged Creators': the entry before it
    has the same thresholds. *)
Lemma first_match_not_engaged user : first_match user ≠ Some seg_engaged.
Proof.
  rewrite first_match_cases, meets_engaged_highly.
  repeat (destruct (meets user _); [discriminate|]). discriminate.
Qed.

Lemma ge_weaken (a : option Q) (b c : Q) :
  (c <= b)%Q → Js.ge a b = true → Js.ge a c = true.
Proof.
  intros Hcb. destruct a as [x|]; [|done]. cbn.
  rewrite !Qle_bool_iff. intros. lra.
Qed.

(** Nor at 'Content Creators': whoever meets its thresholds meets the
    lower ones of 'Active Community', one entry earlier. *)
Lemma meets_content_active user :
  meets user seg_content = true → meets user seg_active = true.
Proof.
  unfold meets. rewrite !andb_true_iff. intros [Hf He]. split.
  - apply (ge_weaken _ (minFollowers seg_content)); [cbn; lra|done].
  - apply (ge_weaken _ (minEngagement seg_content)); [cbn; lra|done].
Qed.

(** The five segments that the loop and its default can give. *)
Lemma computed_segment_cases user :
  default seg_casual (first_match user)
    ∈ [seg_micro; seg_highly; seg_growing; seg_active; seg_casual].
Proof.
  rewrite first_match_cases, meets_engaged_highly.
  pose proof (meets_content_active user) as Hca.
  destruct (meets user seg_micro); [listed|].
  destruct (meets user seg_highly); [listed|].
  destruct (meets user seg_growing); [listed|].
  destruct (meets user seg_active); [listed|].
  destruct (meets user seg_content); [by specialize (Hca eq_refl)|].
  destruct (meets user seg_casual); listed.
Qed.

(** Each of the five is given to some record. *)
Example assigned_segments_reached :
  map segment
    (performClustering
       [ U1; sample_user "H1" 41 6000 450 "Paris" ["art"];
         sample_user "G1" 52 2500 350 "Tokyo" ["food"];
         sample_user "A1" 23 600 250 "Dubai" ["music"]; U3 ])
  = [ Some "Micro-Influencers"; Some "Highly Engaged"; Some "Growing Accounts";
      Some "Active Community"; Some "Casual Users" ].
Proof. reflexivity. Qed.

(** C9: no record without a segment is given 'Engaged Creators'. *)
Theorem engaged_creators_unreachable (users : list User) (i : nat) (user : User) :
  users !! i = Some user →
  Js.truthy_str (segment user) = false →
  ∃ r, performClustering users !! i = Some r
    ∧ segment r ≠ Some "Engaged Creators".
Proof.
  intros Hi Hseg. exists (clusterUser user).
  rewrite performClustering_lookup, Hi. split; [done|].
  rewrite (clusterUser_computed _ (has_segment_false _ Hseg)).
  pose proof (computed_segment_cases user) as Hc.
  rewrite !elem_of_cons, elem_of_nil in Hc.
  destruct Hc as [->|[->|[->|[->|[->|[]]]]]]; discriminate.
Qed.

Lemma engaged_creators_unreachable_witness :
  ∃ r, performClustering [U1; U2; U3] !! 1%nat = Some r
    ∧ segment r ≠ Some "Engaged Creators".
Proof. apply (engaged_creators_unreachable [U1; U2; U3] 1 U2); reflexivity. Defined.

(** Every record that leaves [clusterUser] carries a segment and a
    colour. *)
Lemma clusterUser_has_segment user : has_segment (clusterUser user) = true.
Proof.
  unfold clusterUser. destruct (has_segment user) eqn:Hs; [done|].
  rewrite default_segment_casual.
  pose proof (computed_segment_cases user) as Hc.
  rewrite !elem_of_cons, elem_of_nil in Hc.
  destruct Hc as [->|[->|[->|[->|[->|[]]]]]]; reflexivity.
Qed.

Lemma clusterUser_idempotent user : clusterUser (clusterUser user) = clusterUser user.
Proof.
  pose proof (clusterUser_has_segment user) as H.
  unfold clusterUser at 1. by rewrite H.
Qed.

(** C10: a record that carries a truthy segment and a truthy
    segmentColor comes back as it is, whatever its counters are, and a
    second run of [performClustering] changes nothing. *)
Theorem performClustering_keeps_segmented (users : list User) (i : nat) (user : User) :
  users !! i = Some user →
  Js.truthy_str (segment user) = true →
  Js.truthy_str (segmentColor user) = true →
  performClustering users !! i = Some user
  ∧ performClustering (performClustering users) = performClustering users.
Proof.
  intros Hi Hs Hc. split.
  - rewrite performClustering_lookup, Hi. cbn. f_equal.
    unfold clusterUser, has_segment. by rewrite Hs, Hc.
  - unfold performClustering. rewrite <- list_fmap_compose.
    apply list_fmap_ext. intros _ u _. apply clusterUser_idempotent.
Qed.

(** A record labelled 'Micro-Influencers' with 100 followers is kept. *)
Lemma performClustering_keeps_segmented_witness :
  performClustering [U1; labelled U3 "Micro-Influencers" "#123456"] !! 1%nat
    = Some (labelled U3 "Micro-Influencers" "#123456")
  ∧ performClustering (performClustering [U1; labelled U3 "Micro-Influencers" "#123456"])
    = performClustering [U1; labelled U3 "Micro-Influencers" "#123456"].
Proof.
  apply (performClustering_keeps_segmented
           [U1; labelled U3 "Micro-Influencers" "#123456"] 1
           (labelled U3 "Micro-Influencers" "#123456")); reflexivity.
Defined.

(** ** Similarity *)

Lemma filter_elem_of_intersection (X Y : gset string) :
  filter (λ x, x ∈ Y) X = X ∩ Y.
Proof.
  apply leibniz_equiv. intros x.
  rewrite elem_of_filter, elem_of_intersection. tauto.
Qed.

Lemma tags_intersection_comm (X Y : gset string) : X ∩ Y = Y ∩ X.
Proof. apply (comm_L _). Qed.

Lemma tags_union_comm (X Y : gset string) : X ∪ Y = Y ∪ X.
Proof. apply (comm_L _). Qed.

Lemma size_q_nonneg (X : gset string) : (0 <= size_q X)%Q.
Proof.
  unfold size_q. rewrite <- (Zle_Qle 0). lia.
Qed.

Lemma interest_ratio_nonneg (X Y : gset string) :
  (0 <= size_q X / size_q Y)%Q.
Proof.
  unfold Qdiv. apply Qmult_le_0_compat; [apply size_q_nonneg|].
  apply Qinv_le_0_compat, size_q_nonneg.
Qed.

(** C1: the score does not depend on the order of its two arguments,
    and it lies in [0, 1]. *)
Theorem calculateSimilarity_symmetric_bounded (A B : User) :
  calculateSimilarity A B = calculateSimilarity B A
  ∧ (0 <= calculateSimilarity A B <= 1)%Q.
Proof.
  split.
  - unfold calculateSimilarity.
    rewrite !filter_elem_of_intersection.
    rewrite (tags_intersection_comm (interest_set A)).
    rewrite (tags_union_comm (interest_set A)).
    rewrite (Qabs_Qminus (Js.or_q (age A) 25)).
    rewrite (Qabs_Qminus (Js.parseFloatV (Js.or_num (engagementRate A) 5))).
    destruct (decide (city A = city B)), (decide (city B = city A));
      congruence.
  - unfold calculateSimilarity. split; [|apply Q.le_min_l].
    apply Q.min_glb; [lra|].
    set (i := if (0 <? _)%nat then _ else _).
    assert (0 <= i)%Q as Hi.
    { subst i. destruct (0 <? _)%nat; [apply interest_ratio_nonneg|lra]. }
    set (a := Qmax 0 (1 - _ / 50)).
    set (e := Qmax 0 (1 - _ / 20)).
    assert (0 <= a)%Q as Ha by apply Q.le_max_l.
    assert (0 <= e)%Q as He by apply Q.le_max_l.
    set (c := if decide (city A = city B) then _ else _).
    assert (0 <= c)%Q as Hc by (subst c; destruct (decide _); lra).
    lra.
Qed.

(** The spec's scenario: U2 is closer to U1 than U3 is. *)
Example similarity_scenario :
  (calculateSimilarity U1 U3 < calculateSimilarity U1 U2)%Q.
Proof. vm_compute. reflexivity. Qed.

(** ** Sorting by a key, largest first *)

Section SortByKey.
Context {A : Type} (key : A → Q).

Local Abbreviation cmp := (descending_by key).
Local Abbreviation above := (λ a b : A, (key b <= key a)%Q).

Lemma cmp_stays x y : Qle_bool (cmp x y) 0 = true ↔ (key y <= key x)%Q.
Proof. unfold descending_by. rewrite Qle_bool_iff. split; intros; lra. Qed.

Lemma sort_insert_perm x l : sort_insert cmp x l ≡ₚ x :: l.
Proof.
  induction l as [|y r IH]; cbn [sort_insert]; [done|].
  destruct (Qle_bool (cmp x y) 0); [done|].
  rewrite IH. apply Permutation_swap.
Qed.

Lemma js_sort_perm l : js_sort cmp l ≡ₚ l.
Proof.
  induction l as [|x l IH]; cbn; [done|].
  change (foldr (sort_insert cmp) [] l) with (js_sort cmp l).
  by rewrite sort_insert_perm, IH.
Qed.

Lemma sort_insert_sorted x l :
  StronglySorted above l → StronglySorted above (sort_insert cmp x l).
Proof.
  induction 1 as [|y r Hr IH Hy]; cbn [sort_insert].
  - repeat constructor.
  - destruct (Qle_bool (cmp x y) 0) eqn:Hc.
    + apply cmp_stays in Hc.
      constructor; [by constructor|].
      constructor; [done|].
      eapply Forall_impl; [exact Hy|]. intros z Hz. cbn in Hz. lra.
    + assert (key x <= key y)%Q as Hxy.
      { destruct (Qlt_le_dec (key x) (key y)) as [?|Hle]; [lra|].
        apply cmp_stays in Hle. congruence. }
      constructor; [done|].
      rewrite sort_insert_perm. by constructor.
Qed.

Lemma js_sort_sorted l : StronglySorted above (js_sort cmp l).
Proof.
  induction l as [|x l IH]; cbn; [constructor|].
  by apply sort_insert_sorted.
Qed.

(** Stability: among the elements of one key value, the order of the
    input is the order of the result. *)
Lemma sort_insert_ties v x l :
  filter (λ a, Qeq_bool (key a) v) (sort_insert cmp x l)
  = filter (λ a, Qeq_bool (key a) v) (x :: l).
Proof.
  induction l as [|y r IH]; cbn [sort_insert]; [done|].
  destruct (Qle_bool (cmp x y) 0) eqn:Hc; [done|].
  rewrite filter_cons, IH, !filter_cons.
  destruct (decide (Qeq_bool (key x) v)) as [Hx|Hx];
    destruct (decide (Qeq_bool (key y) v)) as [Hy|Hy]; try done.
  exfalso. apply Is_true_true, Qeq_bool_iff in Hx, Hy.
  assert (Qle_bool (cmp x y) 0 = true); [|congruence].
  apply cmp_stays. lra.
Qed.

Lemma js_sort_ties v l :
  filter (λ a, Qeq_bool (key a) v) (js_sort cmp l)
  = filter (λ a, Qeq_bool (key a) v) l.
Proof.
  induction l as [|x l IH]; cbn [js_sort foldr]; [done|].
  change (foldr (sort_insert cmp) [] l) with (js_sort cmp l).
  by rewrite sort_insert_ties, !filter_cons, IH.
Qed.
End SortByKey.

(** ** Recommendations *)

Lemma filter_take_prefix {A} (P : A → Prop) `{!∀ x, Decision (P x)} n (l : list A) :
  filter P (take n l) `prefix_of` filter P l.
Proof.
  rewrite <- (take_drop n l) at 2. rewrite filter_app. by apply prefix_app_r.
Qed.

Lemma fmap_filter_fmap {A B C} (f : A → B) (g : B → C) (P : B → Prop)
    `{!∀ x, Decision (P x)} (l : list A) :
  g <$> filter P (f <$> l) = (g ∘ f) <$> filter (P ∘ f) l.
Proof.
  induction l as [|x l IH]; [done|].
  cbn [fmap list_fmap]. rewrite !filter_cons. cbn [compose].
  destruct (decide (P (f x))); cbn; by rewrite IH.
Qed.

Lemma recommend_user targetUser : rec_user ∘ recommend targetUser = id.
Proof. reflexivity. Qed.

(** C3: the target is left out, at most [n] records come back (10 by
    default), they are in descending order of similarity, and for each
    similarity value the records that have it follow the order of the
    input collection. *)
Theorem getRecommendations_spec (targetUser : User) (allUsers : list User) (n : nat) :
  Forall (λ r, userId (rec_user r) ≠ userId targetUser)
         (getRecommendations targetUser allUsers n)
  ∧ length (getRecommendations targetUser allUsers n) ≤ n
  ∧ length (getRecommendations_default targetUser allUsers) ≤ 10
  ∧ StronglySorted (λ a b, (similarity b <= similarity a)%Q)
                   (getRecommendations targetUser allUsers n)
  ∧ ∀ v : Q,
      rec_user <$> filter (λ r, Qeq_bool (similarity r) v)
                          (getRecommendations targetUser allUsers n)
      `prefix_of`
      filter (λ u, Qeq_bool (calculateSimilarity targetUser u) v
                   ∧ userId u ≠ userId targetUser) allUsers.
Proof.
  unfold getRecommendations_default, getRecommendations.
  change by_similarity_desc with (descending_by similarity).
  repeat split.
  - apply Forall_take. rewrite js_sort_perm. apply Forall_fmap, Forall_forall.
    intros u Hu. unfold candidates in Hu. apply list_elem_of_filter in Hu.
    cbn. tauto.
  - rewrite length_take. lia.
  - rewrite length_take. lia.
  - set (s := js_sort _ _).
    assert (StronglySorted (λ a b, (similarity b <= similarity a)%Q) s) as Hs
      by apply js_sort_sorted.
    rewrite <- (take_drop n s) in Hs. by apply StronglySorted_app_1_l in Hs.
  - intros v. set (s := js_sort _ _).
    destruct (filter_take_prefix (λ r, Qeq_bool (similarity r) v) n s) as [k Hk].
    exists (rec_user <$> k).
    rewrite <- fmap_app, <- Hk. subst s.
    rewrite (js_sort_ties similarity).
    change (map (recommend targetUser) (candidates targetUser allUsers))
      with (recommend targetUser <$> candidates targetUser allUsers).
    rewrite fmap_filter_fmap, recommend_user, list_fmap_id.
    unfold candidates. by rewrite list_filter_filter.
Qed.

(** Two records of equal similarity stay in the order of the input. *)
Example recommendations_tie :
  map (λ r, userId (rec_user r))
      (getRecommendations_default U1
         [sample_user "T1" 30 20000 600 "Tokyo" ["tech"; "fashion"]; U3; U2])
  = ["T1"; "U2"; "U3"].
Proof. vm_compute. reflexivity. Qed.

(** The spec's scenario: U2 is ranked above U3 for the target U1. *)
Example recommendations_scenario :
  map (λ r, userId (rec_user r)) (getRecommendations_default U1 [U1; U2; U3])
  = ["U2"; "U3"].
Proof. vm_compute. reflexivity. Qed.

(** ** Segment colours of the two data paths *)

(** The claim fails for U1: the catalog paints 'Micro-Influencers'
    "#8b5cf6", [getSegmentColor] paints it "#f87171". *)
Lemma segment_colour_differs :
  ¬ (∀ user, Js.truthy_str (segment user) = false →
       segmentColor (clusterUser user)
       = Some (getSegmentColor (segment (clusterUser user)))).
Proof. intros H. specialize (H U1 eq_refl). vm_compute in H. discriminate. Qed.

(** Entry by entry: the two tables agree on four names out of eight. *)
Lemma catalog_against_getSegmentColor :
  Forall (λ s, seg_color s = getSegmentColor (Some (seg_name s))
               ↔ seg_name s ∈ ["Highly Engaged"; "Growing Accounts";
                                "Casual Users"; "Newbies"])
         segments.
Proof.
  unfold segments. repeat apply Forall_cons_2; [..|apply Forall_nil_2];
    (split; [intros H; vm_compute in H; first [discriminate | decide_holds]
            | intros H; first [reflexivity | decide_fails H]]).
Qed.

(** The table of [apiClient.js] agrees with the catalog on four names
    as well, not the same four. *)
Lemma catalog_against_apiClient :
  Forall (λ s, seg_color s = ApiClient.getSegmentColor (Some (seg_name s))
               ↔ seg_name s ∈ ["Highly Engaged"; "Growing Accounts";
                                "Content Creators"; "Casual Users"])
         segments.
Proof.
  unfold segments. repeat apply Forall_cons_2; [..|apply Forall_nil_2];
    (split; [intros H; vm_compute in H; first [discriminate | decide_holds]
            | intros H; first [reflexivity | decide_fails H]]).
Qed.

(** C5, amended: a record labelled by [performClustering] has the colour
    that [getSegmentColor] gives to its segment name exactly when that
    segment is 'Highly Engaged', 'Growing Accounts' or 'Casual Users'. *)
Theorem segment_colour_agreement (user : User) :
  Js.truthy_str (segment user) = false →
  segmentColor (clusterUser user) = Some (getSegmentColor (segment (clusterUser user)))
  ↔ segment (clusterUser user)
      ∈ [Some "Highly Engaged"; Some "Growing Accounts"; Some "Casual Users"].
Proof.
  intros Hseg.
  rewrite (clusterUser_computed _ (has_segment_false _ Hseg)).
  pose proof (computed_segment_cases user) as Hc.
  rewrite !elem_of_cons, elem_of_nil in Hc.
  destruct Hc as [->|[->|[->|[->|[->|[]]]]]];
    (split; [intros H; vm_compute in H; first [discriminate | decide_holds]
            | intros H; first [reflexivity | decide_fails H]]).
Qed.

Lemma segment_colour_agreement_witness :
  segmentColor (clusterUser U3) = Some (getSegmentColor (segment (clusterUser U3)))
  ↔ segment (clusterUser U3)
      ∈ [Some "Highly Engaged"; Some "Growing Accounts"; Some "Casual Users"].
Proof. apply (segment_colour_agreement U3). reflexivity. Defined.

(** ** Segment statistics *)

Lemma set_values_elem {A} `{EqDecision A} (l : list A) x :
  x ∈ set_values l ↔ x ∈ l.
Proof.
  induction l as [|y r IH]; cbn [set_values]; [done|].
  rewrite !elem_of_cons, list_elem_of_filter, IH.
  destruct (decide (x = y)); tauto.
Qed.

Lemma set_values_NoDup {A} `{EqDecision A} (l : list A) : NoDup (set_values l).
Proof.
  induction l as [|y r IH]; cbn [set_values]; [constructor|].
  apply NoDup_cons. split.
  - rewrite list_elem_of_filter. tauto.
  - by apply NoDup_filter.
Qed.

(** Each record is counted under exactly one of the distinct names. *)
Lemma one_name_matches {A} `{EqDecision A} (names : list A) (x : A) :
  NoDup names → x ∈ names →
  sum_list_with (λ n, if decide (x = n) then 1 else 0) names = 1.
Proof.
  induction 1 as [|n names Hn Hnd IH]; [by intros ?%elem_of_nil|].
  cbn [sum_list_with]. intros [->|Hx]%elem_of_cons.
  - rewrite decide_True by done.
    assert (sum_list_with (λ n0, if decide (n = n0) then 1 else 0) names = 0) as ->; [|done].
    clear IH Hnd. induction names as [|m names IH]; [done|].
    cbn [sum_list_with]. rewrite not_elem_of_cons in Hn.
    rewrite decide_False by tauto. rewrite IH by tauto. done.
  - rewrite decide_False by (intros ->; done). by rewrite IH.
Qed.

Lemma counts_partition {A B} `{EqDecision B} (f : A → B) (names : list B) (l : list A) :
  NoDup names → (∀ x, x ∈ l → f x ∈ names) →
  sum_list_with (λ n, length (filter (λ x, f x = n) l)) names = length l.
Proof.
  intros Hnd. induction l as [|x l IH]; intros Hin.
  - clear. induction names as [|n names IHn]; [done|].
    cbn [sum_list_with]. by rewrite IHn.
  - assert (sum_list_with (λ n, length (filter (λ x, f x = n) (x :: l))) names
            = sum_list_with (λ n, if decide (f x = n) then 1 else 0) names
              + sum_list_with (λ n, length (filter (λ x, f x = n) l)) names) as ->.
    { clear. induction names as [|n names IHn]; [done|].
      cbn [sum_list_with]. rewrite IHn, filter_cons.
      destruct (decide (f x = n)); cbn [length]; lia. }
    rewrite one_name_matches, IH; [done|..].
    + intros y Hy. apply Hin. by right.
    + done.
    + apply Hin. by left.
Qed.

Lemma sumq_with_cons {A} (f : A → Q) (x : A) (l : list A) :
  sumq_with f (x :: l) = (f x + sumq_with f l)%Q.
Proof. reflexivity. Qed.

Lemma sumq_with_perm {A} (f : A → Q) (l k : list A) :
  l ≡ₚ k → (sumq_with f l == sumq_with f k)%Q.
Proof.
  induction 1 as [|x l k _ IH|x y l|l k m _ IH1 _ IH2]; cbn [sumq_with foldr].
  - reflexivity.
  - fold (sumq_with f l) (sumq_with f k). rewrite IH. reflexivity.
  - ring.
  - by rewrite IH1.
Qed.

Lemma len_q_cons {A} (x : A) (l : list A) : len_q (x :: l) = (len_q l + 1)%Q.
Proof.
  unfold len_q. cbn [length].
  by rewrite Nat2Z.inj_succ, <- Z.add_1_r, inject_Z_plus.
Qed.

Lemma len_q_nonneg {A} (l : list A) : (0 <= len_q l)%Q.
Proof. unfold len_q. rewrite <- (Zle_Qle 0). lia. Qed.

(** One decimal: the printed percentage is within 0.05 of the number. *)
Lemma toFixed_1_close (x : Q) :
  (0 <= x)%Q → (Qabs (Js.fixed_value (Js.toFixed 1 x) - x) <= 1 # 20)%Q.
Proof.
  intros Hx. unfold Js.toFixed, Js.fixed_value, Js.round_half_up. cbn [Js.fx_units Js.fx_digits].
  apply Qle_bool_iff in Hx. rewrite Hx.
  change (Js.pow10 1) with 10%Q.
  pose proof (Qfloor_le (x * 10 + (1 # 2))) as Hlo.
  pose proof (Qlt_floor (x * 10 + (1 # 2))) as Hhi.
  rewrite inject_Z_plus in Hhi. change (inject_Z 1) with 1%Q in Hhi.
  set (F := inject_Z (Qfloor (x * 10 + (1 # 2)))) in *.
  unfold Qdiv. change (/ 10)%Q with (1 # 10)%Q.
  apply Qabs_Qle_condition. split; lra.
Qed.

Section StatsOf.
Context (users : list User).

Local Abbreviation step :=
  (λ (stats : gmap string SegmentStat) segName,
     match segment_stat users segName with
     | Some st => <[key_of segName := st]> stats
     | None => stats
     end).
Local Abbreviation entry := (λ segName, (key_of segName,.) <$> segment_stat users segName).
Local Abbreviation count_of := (λ segName, length (filter (λ u, segment u = segName) users)).

(** The object built by the [forEach] holds one entry per name. *)
Lemma stats_entries (names : list (option string)) (acc : gmap string SegmentStat) :
  NoDup (key_of <$> names) →
  (∀ n, n ∈ names → acc !! key_of n = None) →
  map_to_list (foldl step acc names) ≡ₚ omap entry names ++ map_to_list acc.
Proof.
  revert acc. induction names as [|n names IH]; intros acc Hnd Hfresh; [done|].
  cbn [foldl omap list_omap]. apply NoDup_cons in Hnd as [Hn Hnd].
  destruct (segment_stat users n) as [st|] eqn:Hst; cbn [fmap option_fmap option_map].
  - rewrite IH; [|done|].
    + rewrite map_to_list_insert by (apply Hfresh; left).
      by rewrite <- Permutation_middle.
    + intros m Hm. rewrite lookup_insert_ne; [apply Hfresh; by right|].
      intros Heq. apply Hn. rewrite Heq. by apply list_elem_of_fmap_2.
  - apply IH; [done|]. intros m Hm. apply Hfresh. by right.
Qed.

Lemma stat_values_names :
  Forall (λ u, is_Some (segment u)) users →
  stat_values (getSegmentStats users)
    ≡ₚ omap (segment_stat users) (set_values (map segment users)).
Proof.
  intros Hall. unfold stat_values, getSegmentStats.
  rewrite stats_entries.
  - rewrite map_to_list_empty, app_nil_r.
    induction (set_values (map segment users)) as [|n names IH]; [done|].
    cbn [omap list_omap]. destruct (segment_stat users n); cbn; by rewrite ?IH.
  - apply NoDup_fmap_2_strong; [|apply set_values_NoDup].
    intros x y Hx Hy.
    apply (proj1 (set_values_elem _ _)) in Hx.
    apply (proj1 (set_values_elem _ _)) in Hy.
    rewrite Forall_forall in Hall.
    apply list_elem_of_fmap in Hx as (ux & -> & Hux), Hy as (uy & -> & Huy).
    destruct (Hall _ Hux) as [sx ->], (Hall _ Huy) as [sy ->]. cbn. congruence.
  - intros n _. apply lookup_empty.
Qed.

Lemma segment_stat_count (n : option string) :
  from_option st_count 0%nat (segment_stat users n) = count_of n.
Proof.
  unfold segment_stat. destruct (0 <? _)%nat eqn:Hc; [done|].
  apply Nat.ltb_ge in Hc. cbn. lia.
Qed.

Lemma segment_stat_percentage (n : option string) (st : SegmentStat) :
  segment_stat users n = Some st →
  st_percentage st
  = Js.toFixed 1 (len_q (filter (λ u, segment u = n) users) / len_q users * 100).
Proof.
  unfold segment_stat. destruct (0 <? _)%nat; [|discriminate]. by intros [= <-].
Qed.

Lemma counts_of_entries (names : list (option string)) :
  sum_list_with st_count (omap (segment_stat users) names)
  = sum_list_with count_of names.
Proof.
  induction names as [|n names IH]; [done|].
  cbn [omap list_omap sum_list_with]. rewrite <- (segment_stat_count n).
  destruct (segment_stat users n); cbn [from_option sum_list_with]; lia.
Qed.

(** The printed percentages against the exact shares. *)
Lemma percentages_of_entries (names : list (option string)) :
  (Qabs (sumq_with (λ st, Js.fixed_value (st_percentage st))
                   (omap (segment_stat users) names)
         - inject_Z (Z.of_nat (sum_list_with count_of names)) / len_q users * 100)
   <= (1 # 20) * len_q (omap (segment_stat users) names))%Q.
Proof.
  induction names as [|n names IH].
  - cbn [omap list_omap sum_list_with sumq_with foldr].
    change (inject_Z (Z.of_nat 0)) with 0%Q.
    setoid_replace (0 - 0 / len_q users * 100)%Q with 0%Q using relation Qeq
      by (unfold Qdiv; ring).
    vm_compute. discriminate.
  - cbn [omap list_omap sum_list_with].
    rewrite Nat2Z.inj_add, inject_Z_plus.
    destruct (segment_stat users n) as [st|] eqn:Hst.
    + apply segment_stat_percentage in Hst.
      rewrite sumq_with_cons, Hst.
      rewrite len_q_cons.
      set (x := (len_q (filter (λ u : User, segment u = n) users) / len_q users * 100)%Q).
      assert (0 <= x)%Q as Hx.
      { subst x. unfold Qdiv. repeat apply Qmult_le_0_compat; try lra.
        - unfold len_q. rewrite <- (Zle_Qle 0). lia.
        - apply Qinv_le_0_compat. unfold len_q. rewrite <- (Zle_Qle 0). lia. }
      pose proof (toFixed_1_close x Hx) as Hr.
      apply Qabs_Qle_condition in Hr, IH. apply Qabs_Qle_condition.
      change (inject_Z (Z.of_nat (length (filter (λ u : User, segment u = n) users))))
        with (len_q (filter (λ u : User, segment u = n) users)).
      set (c := len_q (filter _ users)) in *.
      set (S := inject_Z (Z.of_nat (sum_list_with _ names))) in *.
      assert ((c + S) / len_q users * 100 == x + S / len_q users * 100)%Q as ->.
      { subst x. unfold Qdiv. ring. }
      lra.
    + pose proof (segment_stat_count n) as Hc. rewrite Hst in Hc. cbn in Hc.
      rewrite <- Hc.
      change (inject_Z (Z.of_nat 0)) with 0%Q. rewrite Qplus_0_l. exact IH.
Qed.
End StatsOf.

Lemma segment_names_cover (users : list User) (u : User) :
  u ∈ users → segment u ∈ set_values (map segment users).
Proof.
  intros Hu. apply set_values_elem.
  change (map segment users) with (segment <$> users).
  by apply list_elem_of_fmap_2.
Qed.

(** The claim fails for [crowd16]: three segments hold 1 record of 16
    and print "6.3", the fourth holds 13 and prints "81.3"; the sum is
    100.2. *)
Lemma percentages_exceed_tolerance :
  ¬ (∀ users : list User,
       users ≠ [] → Forall (λ u, is_Some (segment u)) users →
       total_count (getSegmentStats users) = length users
       ∧ (Qabs (total_percentage (getSegmentStats users) - 100) <= 1 # 10)%Q).
Proof.
  intros H. destruct (H crowd16) as [_ Hp].
  - discriminate.
  - decide_holds.
  - vm_compute in Hp. by apply Hp.
Qed.

(** C8, amended: the counts add up to the size of the collection, and
    the printed percentages add up to 100 within 0.05 for each segment
    that occurs. *)
Theorem getSegmentStats_totals (users : list User) :
  users ≠ [] →
  Forall (λ u, is_Some (segment u)) users →
  total_count (getSegmentStats users) = length users
  ∧ (Qabs (total_percentage (getSegmentStats users) - 100)
     <= (1 # 20) * inject_Z (Z.of_nat (size (getSegmentStats users))))%Q.
Proof.
  intros Hne Hall.
  pose proof (stat_values_names users Hall) as Hperm.
  assert (sum_list_with (λ n, length (filter (λ u, segment u = n) users))
            (set_values (map segment users)) = length users) as Hcount.
  { apply counts_partition; [apply set_values_NoDup|].
    intros u. apply segment_names_cover. }
  split.
  - unfold total_count. by rewrite Hperm, counts_of_entries.
  - assert (size (getSegmentStats users)
            = length (omap (segment_stat users) (set_values (map segment users)))) as ->.
    { rewrite <- (Permutation_length Hperm). unfold stat_values.
      by rewrite length_fmap, length_map_to_list. }
    unfold total_percentage. rewrite (sumq_with_perm _ _ _ Hperm).
    pose proof (percentages_of_entries users (set_values (map segment users))) as Hp.
    rewrite Hcount in Hp. fold (len_q users) in Hp.
    assert (0 < len_q users)%Q as HN.
    { unfold len_q. rewrite <- (Zlt_Qlt 0). destruct users; [done|cbn; lia]. }
    assert (len_q users / len_q users * 100 == 100)%Q as Hone by (field; lra).
    rewrite Hone in Hp. exact Hp.
Qed.

Lemma getSegmentStats_totals_witness :
  total_count (getSegmentStats crowd16) = length crowd16
  ∧ (Qabs (total_percentage (getSegmentStats crowd16) - 100)
     <= (1 # 20) * inject_Z (Z.of_nat (size (getSegmentStats crowd16))))%Q.
Proof.
  apply (getSegmentStats_totals crowd16).
  - discriminate.
  - decide_holds.
Defined.

(** ** The synthesizer *)

Lemma floor_scaled_range (r k : Q) :
  (0 <= r < 1)%Q → (0 < k)%Q → (0 <= Js.floor (r * k) < k)%Q.
Proof.
  intros [Hr0 Hr1] Hk. unfold Js.floor.
  assert (0 <= r * k)%Q as H0 by (apply Qmult_le_0_compat; lra).
  assert (r * k < k)%Q as H1.
  { setoid_replace k with (1 * k)%Q using relation Qeq at 2 by ring.
    apply Qmult_lt_compat_r; lra. }
  split.
  - rewrite <- (Zle_Qle 0). apply (Qfloor_resp_le 0) in H0. exact H0.
  - pose proof (Qfloor_le (r * k)). lra.
Qed.

Lemma random_int_range (k b : Q) rng j :
  unit_range rng → (0 < k)%Q →
  (b <= (random_int k b rng j).1 < b + k)%Q ∧ (random_int k b rng j).2 = S j.
Proof.
  intros Hrng Hk. step_rand. pose proof (floor_scaled_range _ _ (Hrng j) Hk).
  split; [lra|done].
Qed.

Lemma index_in_range {A} (arr : list A) (r : Q) :
  (0 <= r < 1)%Q → arr ≠ [] →
  ∃ x, Js.index arr (Qfloor (r * len_q arr)) = Some x ∧ x ∈ arr.
Proof.
  intros Hr Hne.
  assert (0 < len_q arr)%Q as Hlen.
  { unfold len_q. rewrite <- (Zlt_Qlt 0). destruct arr; [done|cbn; lia]. }
  destruct (floor_scaled_range r (len_q arr) Hr Hlen) as [H0 H1].
  unfold Js.floor in H0, H1. unfold Js.index.
  set (F := Qfloor (r * len_q arr)) in *.
  unfold len_q in H1. rewrite <- (Zle_Qle 0) in H0. rewrite <- Zlt_Qlt in H1.
  destruct (Z.ltb_spec F 0) as [|_]; [lia|].
  destruct (lookup_lt_is_Some_2 arr (Z.to_nat F)) as [x Hx]; [lia|].
  exists x. split; [done|]. by eapply list_elem_of_lookup_2.
Qed.

(** The inner loop: the list grows by tags it does not hold yet. *)
Lemma pick_interests_spec (k : nat) (acc : list string) rng j :
  NoDup acc →
  NoDup (pick_interests k acc rng j).1
  ∧ length acc ≤ length (pick_interests k acc rng j).1 ≤ length acc + k
  ∧ (pick_interests k acc rng j).2 = (j + k)%nat.
Proof.
  revert acc j. induction k as [|k IH]; intros acc j Hnd.
  - cbn. split; [done|]. split; lia.
  - cbn [pick_interests]. step_rand.
    set (acc' := match Js.index _ _ with Some i => _ | None => acc end).
    assert (NoDup acc' ∧ length acc ≤ length acc' ≤ S (length acc)) as [Hnd' Hlen].
    { subst acc'. destruct (Js.index _ _) as [i|]; [|split; [done|lia]].
      case_bool_decide as Hin; [split; [done|lia]|].
      split.
      - apply NoDup_app. split; [done|]. split; [|apply NoDup_singleton].
        intros x Hx ->%list_elem_of_singleton. done.
      - rewrite length_app. cbn. lia. }
    destruct (IH acc' (S j) Hnd') as (H1 & H2 & H3).
    split; [done|]. split; lia.
Qed.

(** With an outcome in [0, 1) the first round finds a tag: the list is
    not empty afterwards. *)
Lemma pick_interests_nonempty (k : nat) rng j :
  unit_range rng → (0 < k)%nat → 1 ≤ length (pick_interests k [] rng j).1.
Proof.
  intros Hrng Hk. destruct k as [|k]; [lia|].
  cbn [pick_interests]. step_rand.
  destruct (index_in_range interests_vocabulary (rng j) (Hrng j)) as (x & -> & _); [done|].
  rewrite bool_decide_eq_false_2 by apply not_elem_of_nil.
  destruct (pick_interests_spec k ([] ++ [x]) rng (S j)) as (_ & Hlen & _).
  - apply NoDup_singleton.
  - change (length ([] ++ [x])) with 1%nat in Hlen. lia.
Qed.

(** One round of the outer loop, with the position of each draw:
    [j] the number of interests, the next [k] the tags, then followers,
    following, posts, the likes factor, age, gender, city and the
    influence score. *)
Lemma generateUser_draws (i : nat) rng (j : nat) :
  let k := Z.to_nat (Qfloor (rng j * 4) + 2) in
  let j1 := (S j + k)%nat in
  let f := (Js.floor (rng j1 * 50000) + 100)%Q in
  let L := (f * ((5 # 100) + rng (S (S (S j1))) * (1 # 10)))%Q in
  generateUser i rng j =
    ({| userId := "U" +:+ pad4 (pretty (i + 1)%nat);
        username := "user_" +:+ pretty (i + 1)%nat;
        age := Some (Js.floor (rng (S (S (S (S j1)))) * 40) + 18)%Q;
        gender := Js.index genders (Qfloor (rng (S (S (S (S (S j1))))) * len_q genders));
        city := Js.index cities (Qfloor (rng (S (S (S (S (S (S j1)))))) * len_q cities));
        interests := Some (pick_interests k [] rng (S j)).1;
        followers := Some f;
        following := Some (Js.floor (rng (S j1) * 2000) + 50)%Q;
        posts := Some (Js.floor (rng (S (S j1)) * 500) + 10)%Q;
        likes := Some (Js.floor L);
        comments := Some (Js.floor (L * (15 # 100)));
        shares := Some (Js.floor (L * (5 # 100)));
        engagementRate :=
          Some (Js.StrV (Js.toFixed 2
            ((L + L * (15 # 100) + L * (5 # 100)) / f * 100)));
        influenceScore :=
          Some (Js.StrV (Js.toFixed 3
            (rng (S (S (S (S (S (S (S j1))))))) * (1 # 2) + (3 # 10))));
        segment := None; segmentColor := None; segmentId := None |},
     S (S (S (S (S (S (S (S j1)))))))).
Proof.
  intros k j1 f L. unfold generateUser. step_rand. fold k.
  pose proof (pick_interests_spec k [] rng (S j) (NoDup_nil_2)) as (_ & _ & Hpos).
  destruct (pick_interests k [] rng (S j)) as [tags p]. cbn [fst snd] in *.
  subst p. reflexivity.
Qed.

Lemma synthesize_Forall (P : User → Prop) rng :
  (∀ i j, P (generateUser i rng j).1) →
  ∀ count i j, Forall P (synthesize count i rng j).1.
Proof.
  intros HP. induction count as [|count IH]; intros i j; [constructor|].
  cbn [synthesize]. unfold mbind, rand_bind, mret, rand_ret.
  specialize (HP i j). destruct (generateUser i rng j) as [user j'].
  specialize (IH (S i) j'). destruct (synthesize count (S i) rng j') as [rest j''].
  by constructor.
Qed.

Lemma synthesize_length rng count i j :
  length (synthesize count i rng j).1 = count.
Proof.
  revert i j. induction count as [|count IH]; intros i j; [done|].
  cbn [synthesize]. unfold mbind, rand_bind, mret, rand_ret.
  destruct (generateUser i rng j) as [user j'].
  specialize (IH (S i) j'). destruct (synthesize count (S i) rng j') as [rest j''].
  cbn in *. by rewrite IH.
Qed.

(** Three decimals of a number in [0.3, 0.8): between "0.300" and
    "0.800", both possible. *)
Lemma toFixed_3_range (x : Q) :
  (3 # 10 <= x < 8 # 10)%Q →
  (3 # 10 <= Js.fixed_value (Js.toFixed 3 x) <= 8 # 10)%Q.
Proof.
  intros [Hlo Hhi]. unfold Js.toFixed, Js.fixed_value, Js.round_half_up.
  cbn [Js.fx_units Js.fx_digits].
  assert (Qle_bool 0 x = true) as -> by (apply Qle_bool_iff; lra).
  change (Js.pow10 3) with 1000%Q.
  assert (300 <= Qfloor (x * 1000 + (1 # 2)))%Z as H300.
  { rewrite <- (Qfloor_Z 300). apply Qfloor_resp_le.
    change (inject_Z 300) with 300%Q. lra. }
  assert (Qfloor (x * 1000 + (1 # 2)) < 801)%Z as H801.
  { rewrite Zlt_Qlt. pose proof (Qfloor_le (x * 1000 + (1 # 2))).
    change (inject_Z 801) with 801%Q. lra. }
  set (F := Qfloor _) in *.
  assert (F <= 800)%Z as H800 by lia.
  rewrite Zle_Qle in H300, H800.
  change (inject_Z 300) with 300%Q in H300. change (inject_Z 800) with 800%Q in H800.
  unfold Qdiv. change (/ 1000)%Q with (1 # 1000)%Q. lra.
Qed.

Lemma interests_count_range (r : Q) :
  (0 <= r < 1)%Q → 2 ≤ Z.to_nat (Qfloor (r * 4) + 2) ≤ 5.
Proof.
  intros Hr. destruct (floor_scaled_range r 4 Hr) as [H0 H1]; [lra|].
  unfold Js.floor in H0, H1. rewrite <- (Zle_Qle 0) in H0.
  assert (Qfloor (r * 4) < 4)%Z by (rewrite Zlt_Qlt; exact H1). lia.
Qed.

(** What one synthesized record satisfies. *)
Lemma generateUser_ranges (i : nat) rng (j : nat) :
  unit_range rng →
  let user := (generateUser i rng j).1 in
  tags_between 1 5 user
  ∧ in_range 100 50100 (followers user)
  ∧ in_range 50 2050 (following user)
  ∧ in_range 10 510 (posts user)
  ∧ in_range 18 58 (age user)
  ∧ in_closed_range (3 # 10) (8 # 10) (Js.parseFloat (influenceScore user)).
Proof.
  intros Hrng. rewrite generateUser_draws. cbn zeta. cbn [fst].
  set (k := Z.to_nat (Qfloor (rng j * 4) + 2)).
  pose proof (interests_count_range _ (Hrng j)) as Hk. fold k in Hk.
  repeat split.
  - exists (pick_interests k [] rng (S j)).1. split; [done|].
    destruct (pick_interests_spec k [] rng (S j) NoDup_nil_2) as (Hnd & Hlen & _).
    pose proof (pick_interests_nonempty k rng (S j) Hrng). cbn [length] in Hlen.
    split; [lia|done].
  - eexists. split; [reflexivity|].
    pose proof (floor_scaled_range _ 50000 (Hrng (S j + k)%nat)). lra.
  - eexists. split; [reflexivity|].
    pose proof (floor_scaled_range _ 2000 (Hrng (S (S j + k))%nat)). lra.
  - eexists. split; [reflexivity|].
    pose proof (floor_scaled_range _ 500 (Hrng (S (S (S j + k)))%nat)). lra.
  - eexists. split; [reflexivity|].
    pose proof (floor_scaled_range _ 40 (Hrng (S (S (S (S (S j + k)))))%nat)). lra.
  - eexists. split; [reflexivity|]. apply toFixed_3_range.
    pose proof (Hrng (S (S (S (S (S (S (S (S j + k))))))))%nat). lra.
Qed.

Lemma spike_unit_range (position : nat) (value : Q) :
  (0 <= value < 1)%Q → unit_range (spike position value).
Proof. intros Hv i. unfold spike. destruct (i =? position)%nat; lra. Qed.

(** The claim fails for [rng_high_influence]: the two tag draws hit
    "technology" twice, so one tag is kept, and the influence score
    0.79975 is printed "0.800". *)
Lemma synthesized_ranges_differ :
  unit_range rng_high_influence
  ∧ ∃ user, run (generateUserData None 1) rng_high_influence = [user]
      ∧ ¬ tags_between 2 5 user
      ∧ ¬ in_range (3 # 10) (8 # 10) (Js.parseFloat (influenceScore user)).
Proof.
  split; [apply spike_unit_range; lra|].
  eexists. split; [vm_compute; reflexivity|]. split.
  - intros (tags & [= <-] & Hlen & _). cbn in Hlen. lia.
  - intros (q & [= <-] & _ & Hq). vm_compute in Hq. discriminate.
Qed.

(** C7, amended: every synthesized record has between 1 and 5 tags, no
    tag twice, followers in [100, 50100), following in [50, 2050), posts
    in [10, 510), age in [18, 58) and a printed influence score in
    [0.3, 0.8]. *)
Theorem synthesized_ranges (rng : nat → Q) (n : nat) :
  unit_range rng →
  length (run (generateUserData None n) rng) = n
  ∧ Forall (λ user,
              tags_between 1 5 user
              ∧ in_range 100 50100 (followers user)
              ∧ in_range 50 2050 (following user)
              ∧ in_range 10 510 (posts user)
              ∧ in_range 18 58 (age user)
              ∧ in_closed_range (3 # 10) (8 # 10)
                                (Js.parseFloat (influenceScore user)))
           (run (generateUserData None n) rng).
Proof.
  intros Hrng. unfold run, generateUserData. split.
  - apply synthesize_length.
  - apply synthesize_Forall. intros i j. by apply generateUser_ranges.
Qed.

Lemma synthesized_ranges_witness :
  length (run (generateUserData None 3) rng_high_influence) = 3%nat
  ∧ Forall (λ user,
              tags_between 1 5 user
              ∧ in_range 100 50100 (followers user)
              ∧ in_range 50 2050 (following user)
              ∧ in_range 10 510 (posts user)
              ∧ in_range 18 58 (age user)
              ∧ in_closed_range (3 # 10) (8 # 10)
                                (Js.parseFloat (influenceScore user)))
           (run (generateUserData None 3) rng_high_influence).
Proof.
  apply (synthesized_ranges rng_high_influence 3).
  intros i. unfold rng_high_influence, spike. destruct (i =? 10)%nat; lra.
Defined.



Lemma toFixed_2_between (a b : Z) (x : Q) :
  (0 <= a)%Z → (inject_Z a <= x <= inject_Z b)%Q →
  (inject_Z a <= Js.fixed_value (Js.toFixed 2 x) <= inject_Z b)%Q.
Proof.
  intros Ha [Hlo Hhi]. unfold Js.toFixed, Js.fixed_value, Js.round_half_up.
  cbn [Js.fx_units Js.fx_digits].
  assert (0 <= inject_Z a)%Q as Ha' by (by rewrite <- (Zle_Qle 0)).
  assert (Qle_bool 0 x = true) as -> by (apply Qle_bool_iff; lra).
  change (Js.pow10 2) with 100%Q.
  assert (a * 100 <= Qfloor (x * 100 + (1 # 2)))%Z as Hl.
  { rewrite <- (Qfloor_Z (a * 100)). apply Qfloor_resp_le.
    rewrite inject_Z_mult. change (inject_Z 100) with 100%Q. lra. }
  assert (Qfloor (x * 100 + (1 # 2)) < b * 100 + 1)%Z as Hu.
  { rewrite Zlt_Qlt. pose proof (Qfloor_le (x * 100 + (1 # 2))).
    rewrite inject_Z_plus, inject_Z_mult.
    change (inject_Z 100) with 100%Q. change (inject_Z 1) with 1%Q. lra. }
  set (F := Qfloor _) in *.
  assert (F <= b * 100)%Z as Hu' by lia.
  rewrite Zle_Qle in Hl, Hu'. rewrite inject_Z_mult in Hl, Hu'.
  change (inject_Z 100) with 100%Q in Hl, Hu'.
  unfold Qdiv. change (/ 100)%Q with (1 # 100)%Q. lra.
Qed.





(** ** Initialization and fallback *)

Lemma hours_from_length rng count i j : length (hours_from count i rng j).1 = count.
Proof.
  revert i j. induction count as [|count IH]; intros i j; [done|].
  cbn [hours_from]. step_rand.
  specialize (IH (S i) (S j)). destruct (hours_from count (S i) rng (S j)).
  cbn in *. by rewrite IH.
Qed.

Lemma week_of_length rng days j : length (week_of days rng j).1 = length days.
Proof.
  revert j. induction days as [|day more IH]; intros j; [done|].
  cbn [week_of]. step_rand.
  specialize (IH (S (S j))). destruct (week_of more rng (S (S j))).
  cbn in *. by rewrite IH.
Qed.

Lemma bump_nonempty c d : bump c d ≠ [].
Proof. destruct d as [|[k v] r]; cbn; [done|]. by destruct (String.eqb k c). Qed.

Lemma sort_insert_length {A} (cmp : A → A → Q) x l :
  length (sort_insert cmp x l) = S (length l).
Proof.
  induction l as [|y r IH]; cbn; [done|].
  destruct (Qle_bool (cmp x y) 0); cbn; by rewrite ?IH.
Qed.

Lemma js_sort_length {A} (cmp : A → A → Q) l : length (js_sort cmp l) = length l.
Proof.
  induction l as [|x l IH]; cbn; [done|].
  rewrite sort_insert_length. f_equal. exact IH.
Qed.

(** [own_entries] reorders, and only the properties named by an array
    index. *)
Lemma own_entries_perm {V} (l : list (string * V)) : own_entries l ≡ₚ l.
Proof.
  unfold own_entries. rewrite merge_sort_Permutation.
  rewrite (list_filter_iff named (λ entry, ¬ is_Some (array_index entry.1))).
  - apply (filter_app_complement (λ entry, is_Some (array_index entry.1))).
  - intros entry. unfold named. by rewrite eq_None_not_Some.
Qed.

Lemma own_entries_length {V} (l : list (string * V)) :
  length (own_entries l) = length l.
Proof. by rewrite own_entries_perm. Qed.

Lemma getCityDistribution_nonempty users : users ≠ [] → getCityDistribution users ≠ [].
Proof.
  intros Hne. unfold getCityDistribution.
  set (d := foldl _ [] users).
  assert (d ≠ []) as Hd.
  { subst d. destruct users as [|u users _] using rev_ind; [done|].
    rewrite foldl_app. cbn. apply bump_nonempty. }
  intros Htake. apply (f_equal length) in Htake.
  rewrite own_entries_length, length_take, js_sort_length, own_entries_length in Htake.
  destruct d; [done|]. cbn in Htake. lia.
Qed.

Lemma clustered_carry_segment users :
  Forall (λ u, is_Some (segment u)) (performClustering users).
Proof.
  apply Forall_fmap, Forall_forall. intros u _. cbn.
  pose proof (clusterUser_has_segment u) as H. unfold has_segment in H.
  destruct (segment (clusterUser u)); [by eexists|done].
Qed.

Lemma getSegmentStats_nonempty users :
  users ≠ [] → getSegmentStats (performClustering users) ≠ ∅.
Proof.
  intros Hne Hempty.
  pose proof (stat_values_names _ (clustered_carry_segment users)) as Hperm.
  pose proof (counts_of_entries (performClustering users)
                (set_values (map segment (performClustering users)))) as Hc.
  rewrite <- Hperm, Hempty in Hc. unfold stat_values in Hc.
  rewrite map_to_list_empty in Hc. cbn [fmap list_fmap sum_list_with] in Hc.
  rewrite counts_partition in Hc.
  - unfold performClustering in Hc. rewrite length_map in Hc.
    destruct users; [done|cbn in Hc; lia].
  - apply set_values_NoDup.
  - intros u. apply segment_names_cover.
Qed.

Lemma clusterUser_userId user : userId (clusterUser user) = userId user.
Proof. unfold clusterUser. by destruct (has_segment user). Qed.

(** The identifier of a synthesized record is fixed by its index. *)
Lemma generateUser_userId i rng j :
  userId (generateUser i rng j).1 = "U" +:+ pad4 (pretty (i + 1)%nat).
Proof. by rewrite generateUser_draws. Qed.

(** The first two synthesized records are "U0001" and "U0002". *)
Lemma synthesize_first_two rng n j :
  (2 ≤ n)%nat →
  ∃ u0 u1 rest, (synthesize n 0 rng j).1 = u0 :: u1 :: rest
    ∧ userId u0 = "U0001" ∧ userId u1 = "U0002".
Proof.
  intros Hn. destruct n as [|[|n]]; [lia|lia|].
  cbn [synthesize]. unfold mbind, rand_bind, mret, rand_ret.
  pose proof (generateUser_userId 0 rng j) as H0.
  destruct (generateUser 0 rng j) as [u0 j0].
  pose proof (generateUser_userId 1 rng j0) as H1.
  destruct (generateUser 1 rng j0) as [u1 j1].
  destruct (synthesize n 2 rng j1) as [rest j2].
  by exists u0, u1, rest.
Qed.

(** With a second record of another identifier there is something to
    recommend to the first. *)
Lemma getLocalRecommendations_nonempty u0 u1 rest :
  userId u1 ≠ userId u0 →
  App.getLocalRecommendations (head (u0 :: u1 :: rest)) (u0 :: u1 :: rest) ≠ [].
Proof.
  intros Hid Hnil. apply (f_equal length) in Hnil. revert Hnil.
  cbn [head App.getLocalRecommendations].
  unfold getRecommendations_default, getRecommendations.
  rewrite length_take, js_sort_length, length_map.
  unfold candidates. rewrite filter_cons.
  assert (0 < length (filter (λ user, userId user ≠ userId u0) (u1 :: rest)))%nat.
  { rewrite filter_cons_True by done. cbn [length]. lia. }
  destruct (decide (userId u0 ≠ userId u0)); cbn [length]; lia.
Qed.

Lemma local_data_users rng n :
  (2 ≤ n)%nat →
  ∃ u0 u1 rest,
    (run (local_data n) rng).1.1 = performClustering (u0 :: u1 :: rest)
    ∧ userId u0 = "U0001" ∧ userId u1 = "U0002"
    ∧ length (run (local_data n) rng).1.2 = 24%nat
    ∧ length (run (local_data n) rng).2 = 7%nat.
Proof.
  intros Hn.
  unfold run, local_data, generateUserData, mbind, rand_bind, mret, rand_ret.
  destruct (synthesize_first_two rng n 0 Hn) as (u0 & u1 & rest & Hraw & H0 & H1).
  destruct (synthesize n 0 rng 0%nat) as [raw j1]. cbn [fst] in Hraw. subst raw.
  pose proof (hours_from_length rng 24 0 j1) as Hh.
  unfold getEngagementByHour. destruct (hours_from 24 0 rng j1) as [hourly j2].
  pose proof (week_of_length rng ["Mon"; "Tue"; "Wed"; "Thu"; "Fri"; "Sat"; "Sun"] j2) as Hw.
  unfold getWeeklyTrend. destruct (week_of _ rng j2) as [weekly j3].
  exists u0, u1, rest. cbn [fst snd] in *. done.
Qed.

Lemma local_data_complete rng n s :
  (2 ≤ n)%nat → holds_local_data s (run (local_data n) rng) → complete_dataset s.
Proof.
  intros Hn (Hu & Hsel & Hst & Hci & Hh & Hw & Hr).
  destruct (local_data_users rng n Hn) as (u0 & u1 & rest & Hraw & H0 & H1 & H24 & H7).
  rewrite Hraw in *.
  unfold complete_dataset. rewrite Hu, Hsel, Hst, Hci, Hh, Hw, Hr.
  split; [done|]. split; [by eexists|].
  split; [eexists; split; [done|by apply getSegmentStats_nonempty]|].
  split; [eexists; split; [done|by apply getCityDistribution_nonempty]|].
  split; [by eexists|]. split; [by eexists|].
  eexists. split; [done|].
  apply getLocalRecommendations_nonempty.
  rewrite !clusterUser_userId, H0, H1. discriminate.
Qed.

(** The [else] branch: the whole state is set from local data for 1000
    users, and [usingAPI] is cleared. *)
Lemma initializeData_unavailable be s rng :
  App.checkAPIHealth be = false →
  App.usingAPI (run (App.initializeData be None s) rng) = false
  ∧ App.loading (run (App.initializeData be None s) rng) = false
  ∧ holds_local_data (run (App.initializeData be None s) rng)
                     (run (local_data 1000) rng).
Proof.
  intros Hprobe. unfold run, App.initializeData, local_data. rewrite Hprobe.
  unfold mbind, rand_bind, mret, rand_ret.
  destruct (generateUserData None 1000 rng 0%nat) as [raw j1].
  destruct (getEngagementByHour rng j1) as [hourly j2].
  destruct (getWeeklyTrend rng j2) as [weekly j3].
  cbn [fst snd]. repeat split.
Qed.

(** The [catch] block: the whole dataset is set from local data for 500
    users; [usingAPI] is not assigned. *)
Lemma fallback_local s rng :
  App.loading (run (App.fallback None s) rng) = false
  ∧ App.usingAPI (run (App.fallback None s) rng) = App.usingAPI s
  ∧ holds_local_data (run (App.fallback None s) rng) (run (local_data 500) rng).
Proof.
  unfold run, App.fallback, local_data.
  unfold mbind, rand_bind, mret, rand_ret.
  destruct (generateUserData None 500 rng 0%nat) as [raw j1].
  destruct (getEngagementByHour rng j1) as [hourly j2].
  destruct (getWeeklyTrend rng j2) as [weekly j3].
  cbn [fst snd]. repeat split.
Qed.

Lemma initializeData_remote_throws be s rng :
  App.checkAPIHealth be = true → App.remote_sequence be = Thrown →
  run (App.initializeData be None s) rng
  = run (App.fallback None
           (App.setUsingAPI true
              (App.setLoadingStatus App.ConnectedToBackend
                 (App.setLoadingProgress 5
                    (App.setLoadingProgress 0 (App.setLoading true s)))))) rng.
Proof.
  intros Hprobe Hseq. unfold run, App.initializeData. by rewrite Hprobe, Hseq.
Qed.

(** The claim fails for [backend_without_recommendations]: the request
    for the initial recommendations throws, and the session ends in the
    REMOTE state with the remote dataset; only the recommendations are
    computed locally. *)
Lemma recommendations_failure_keeps_remote :
  let s' := run (App.initializeData backend_without_recommendations None App.initial)
                (λ _, 0%Q) in
  App.checkAPIHealth backend_without_recommendations = true
  ∧ App.fetchRecommendationsFromAPI backend_without_recommendations "U1" = Thrown
  ∧ App.usingAPI s' = true
  ∧ App.users s' = [labelled U1 "Rising Stars" "#06b6d4";
                    labelled U2 "Rising Stars" "#06b6d4"]
  ∧ App.segmentStats s' = Remote (JObject [])
  ∧ App.recommendations s'
    = Local (getRecommendations_default (labelled U1 "Rising Stars" "#06b6d4")
               (App.users s'))
  ∧ ¬ complete_dataset s'.
Proof.
  cbn zeta. repeat split.
  intros (_ & _ & (stats & Hstats & _) & _). discriminate.
Qed.

(** In general: when only the request for the initial recommendations
    throws, its own handler computes them locally from the remote users
    and everything else stays as fetched. *)
Lemma initial_recommendations_fallback be s rng
    clusteredUsers stats cities hourly weekly first :
  App.checkAPIHealth be = true →
  App.remote_sequence be = Returned (clusteredUsers, stats, cities, hourly, weekly) →
  head clusteredUsers = Some first →
  App.fetchRecommendationsFromAPI be (userId first) = Thrown →
  App.usingAPI (run (App.initializeData be None s) rng) = true
  ∧ App.loading (run (App.initializeData be None s) rng) = false
  ∧ App.users (run (App.initializeData be None s) rng) = clusteredUsers
  ∧ App.selectedUser (run (App.initializeData be None s) rng) = Some first
  ∧ App.segmentStats (run (App.initializeData be None s) rng) = Remote stats
  ∧ App.cityDistribution (run (App.initializeData be None s) rng) = Remote cities
  ∧ App.engagementByHour (run (App.initializeData be None s) rng) = Remote hourly
  ∧ App.weeklyTrend (run (App.initializeData be None s) rng) = Remote weekly
  ∧ App.recommendations (run (App.initializeData be None s) rng)
    = Local (getRecommendations_default first clusteredUsers).
Proof.
  intros Hprobe Hseq Hfirst Hrecs. unfold run, App.initializeData.
  rewrite Hprobe, Hseq, Hfirst, Hrecs. cbn. repeat split; done.
Qed.

(** The fallback after a failed remote request leaves [usingAPI] as the
    remote branch set it. *)
Lemma remote_failure_keeps_usingAPI be s rng :
  App.checkAPIHealth be = true → App.remote_sequence be = Thrown →
  App.usingAPI (run (App.initializeData be None s) rng) = true.
Proof.
  intros Hprobe Hseq. rewrite initializeData_remote_throws by done.
  by destruct (fallback_local
                 (App.setUsingAPI true
                    (App.setLoadingStatus App.ConnectedToBackend
                       (App.setLoadingProgress 5
                          (App.setLoadingProgress 0 (App.setLoading true s))))) rng)
    as (_ & -> & _).
Qed.

(** C4, amended: when the probe reports the backend unavailable, or one
    of the five requests (users, segment statistics, cities, hourly
    engagement, weekly trend) throws, [initializeData] returns a state,
    no longer loading, that holds a complete dataset computed by the
    local functions alone: for 1000 users and in the LOCAL state after an
    unavailable probe, for 500 users after a throw. *)
Theorem initializeData_local_on_failure
    (be : App.Backend) (s : App.State) (rng : nat → Q) :
  App.checkAPIHealth be = false ∨ App.remote_sequence be = Thrown →
  App.loading (run (App.initializeData be None s) rng) = false
  ∧ complete_dataset (run (App.initializeData be None s) rng)
  ∧ if App.checkAPIHealth be
    then holds_local_data (run (App.initializeData be None s) rng)
                          (run (local_data 500) rng)
    else App.usingAPI (run (App.initializeData be None s) rng) = false
         ∧ holds_local_data (run (App.initializeData be None s) rng)
                            (run (local_data 1000) rng).
Proof.
  intros Hfail. destruct (App.checkAPIHealth be) eqn:Hprobe.
  - destruct Hfail as [|Hseq]; [done|].
    rewrite initializeData_remote_throws by done.
    destruct (fallback_local
                (App.setUsingAPI true
                   (App.setLoadingStatus App.ConnectedToBackend
                      (App.setLoadingProgress 5
                         (App.setLoadingProgress 0 (App.setLoading true s))))) rng)
      as (Hl & _ & Hd).
    split; [done|]. split; [|done].
    apply (local_data_complete rng 500); [lia|done].
  - destruct (initializeData_unavailable be s rng Hprobe) as (Hu & Hl & Hd).
    split; [done|]. split; [|done].
    apply (local_data_complete rng 1000); [lia|done].
Qed.

Lemma initializeData_local_on_failure_witness :
  App.loading (run (App.initializeData backend_unreachable None App.initial)
                   rng_fractional_likes) = false
  ∧ complete_dataset (run (App.initializeData backend_unreachable None App.initial)
                          rng_fractional_likes)
  ∧ if App.checkAPIHealth backend_unreachable
    then holds_local_data (run (App.initializeData backend_unreachable None App.initial)
                               rng_fractional_likes)
                          (run (local_data 500) rng_fractional_likes)
    else App.usingAPI (run (App.initializeData backend_unreachable None App.initial)
                           rng_fractional_likes) = false
         ∧ holds_local_data (run (App.initializeData backend_unreachable None App.initial)
                                 rng_fractional_likes)
                            (run (local_data 1000) rng_fractional_likes).
Proof.
  apply (initializeData_local_on_failure backend_unreachable App.initial
           rng_fractional_likes).
  left. reflexivity.
Defined.

(** A backend that fails on the second request: local data, and
    [usingAPI] still set. *)
Example midway_failure_keeps_usingAPI :
  App.usingAPI (run (App.initializeData backend_failing_midway None App.initial)
                    rng_fractional_likes) = true.
Proof. apply remote_failure_keeps_usingAPI; reflexivity. Qed.

(** * Further properties *)

(** ** More on segment assignment *)





(** X2: 'Content Creators' and 'Newbies' are never assigned either: the
    first sits behind 'Active Community', whose thresholds are lower, the
    second is the entry the loop stops short of. *)
Theorem performClustering_dead_entries (users : list User) (i : nat) (user : User) :
  users !! i = Some user →
  has_segment user = false →
  ∃ r, performClustering users !! i = Some r
    ∧ segment r ≠ Some "Content Creators"
    ∧ segment r ≠ Some "Newbies"
    ∧ segmentId r ≠ Some 5%Z ∧ segmentId r ≠ Some 7%Z.
Proof.
  intros Hi Hseg. exists (clusterUser user).
  rewrite performClustering_lookup, Hi. split; [done|].
  rewrite (clusterUser_computed _ Hseg).
  pose proof (computed_segment_cases user) as Hc.
  rewrite !elem_of_cons, elem_of_nil in Hc.
  destruct Hc as [->|[->|[->|[->|[->|[]]]]]]; repeat split; discriminate.
Qed.

Lemma performClustering_dead_entries_witness :
  ∃ r, performClustering
         [sample_user "C1" 30 1500 350 "Paris" ["art"]] !! 0%nat = Some r
    ∧ segment r ≠ Some "Content Creators"
    ∧ segment r ≠ Some "Newbies"
    ∧ segmentId r ≠ Some 5%Z ∧ segmentId r ≠ Some 7%Z.
Proof.
  apply (performClustering_dead_entries
           [sample_user "C1" 30 1500 350 "Paris" ["art"]] 0
           (sample_user "C1" 30 1500 350 "Paris" ["art"])); reflexivity.
Defined.

(** X3: a record that has no follower count, or no engagement rate,
    fails every comparison and is labelled 'Casual Users' by the default
    of the loop. *)
Theorem performClustering_missing_counters (users : list User) (i : nat) (user : User) :
  users !! i = Some user →
  has_segment user = false →
  followers user = None ∨ engagementRate user = None →
  performClustering users !! i = Some (with_segment user seg_casual)
  ∧ Forall (λ s, meets user s = false) segments.
Proof.
  intros Hi Hseg Hmiss.
  assert (∀ s, meets user s = false) as Hno.
  { intros s. unfold meets. destruct Hmiss as [-> | ->]; cbn; [done|].
    by rewrite andb_false_r. }
  split.
  - rewrite performClustering_lookup, Hi. cbn [fmap option_fmap option_map].
    rewrite (clusterUser_computed _ Hseg), first_match_cases.
    by rewrite !Hno.
  - apply Forall_forall. intros s _. apply Hno.
Qed.

Lemma performClustering_missing_counters_witness :
  performClustering [mkUser "N1" "user_N1" None None None None None None None
                       None None None None None None None None] !! 0%nat
  = Some (with_segment
            (mkUser "N1" "user_N1" None None None None None None None
               None None None None None None None None) seg_casual)
  ∧ Forall (λ s, meets (mkUser "N1" "user_N1" None None None None None None None
                          None None None None None None None None) s = false)
           segments.
Proof.
  apply (performClustering_missing_counters
           [mkUser "N1" "user_N1" None None None None None None None
              None None None None None None None None] 0
           (mkUser "N1" "user_N1" None None None None None None None
              None None None None None None None None));
    [reflexivity | reflexivity | left; reflexivity].
Defined.

(** X4: [performClustering] keeps the number and the order of the
    records and every property but [segment], [segmentColor] and
    [segmentId]; and each record it returns carries a non-empty segment
    name and colour. *)
Theorem performClustering_preserves (users : list User) :
  length (performClustering users) = length users
  ∧ Forall2 (λ user r,
               userId r = userId user ∧ username r = username user
               ∧ age r = age user ∧ gender r = gender user ∧ city r = city user
               ∧ interests r = interests user ∧ followers r = followers user
               ∧ following r = following user ∧ posts r = posts user
               ∧ likes r = likes user ∧ comments r = comments user
               ∧ shares r = shares user
               ∧ engagementRate r = engagementRate user
               ∧ influenceScore r = influenceScore user
               ∧ Js.truthy_str (segment r) = true
               ∧ Js.truthy_str (segmentColor r) = true)
            users (performClustering users).
Proof.
  split; [apply length_map|].
  unfold performClustering. change (map clusterUser users) with (clusterUser <$> users).
  apply Forall2_fmap_r, Forall_Forall2_diag, Forall_forall. intros user _.
  pose proof (clusterUser_has_segment user) as Hs.
  unfold has_segment in Hs. apply andb_true_iff in Hs as [Hs1 Hs2].
  cbn [compose]. repeat split; try done;
    unfold clusterUser; by destruct (has_segment user).
Qed.

(** ** More on the similarity score *)

Lemma calculateSimilarity_terms (A B : User) :
  calculateSimilarity A B
  = Qmin 1 ((45 # 100) * interestSim A B + (25 # 100) * ageSim A B
            + (2 # 10) * engagementSim A B + cityBonus A B)%Q.
Proof. reflexivity. Qed.

Lemma size_q_pos (X : gset string) : (0 < size X)%nat → (0 < size_q X)%Q.
Proof. intros H. unfold size_q. rewrite <- (Zlt_Qlt 0). lia. Qed.

Lemma interestSim_range (A B : User) : (0 <= interestSim A B <= 1)%Q.
Proof.
  unfold interestSim. rewrite filter_elem_of_intersection.
  destruct (0 <? _)%nat eqn:Hu; [|lra].
  apply Nat.ltb_lt in Hu. split; [apply interest_ratio_nonneg|].
  apply Qle_shift_div_r; [by apply size_q_pos|].
  rewrite Qmult_1_l. unfold size_q. rewrite <- Zle_Qle.
  apply inj_le, subseteq_size.
  intros x [Hx _]%elem_of_intersection. apply elem_of_union. by left.
Qed.

Lemma closeness_range (d k : Q) :
  (0 < k)%Q → (0 <= Qmax 0 (1 - Qabs d / k) <= 1)%Q.
Proof.
  intros Hk. split; [apply Q.le_max_l|].
  apply Q.max_lub; [lra|].
  assert (0 <= Qabs d / k)%Q; [|lra].
  apply Qle_shift_div_l; [done|]. rewrite Qmult_0_l. apply Qabs_nonneg.
Qed.

Lemma cityBonus_cases (A B : User) :
  (city A = city B ∧ cityBonus A B = (1 # 10)%Q)
  ∨ (city A ≠ city B ∧ cityBonus A B = 0%Q).
Proof. unfold cityBonus. destruct (decide (city A = city B)); [by left|by right]. Qed.

(** X5: [Math.min(1, ...)] never cuts: the score is the weighted sum
    itself, each of the three similarities lying in [0, 1].  It is at
    most 0.9 for records of different cities and at least 0.1 for
    records of the same city. *)
Theorem calculateSimilarity_unclamped (A B : User) :
  (calculateSimilarity A B
   == (45 # 100) * interestSim A B + (25 # 100) * ageSim A B
      + (2 # 10) * engagementSim A B + cityBonus A B)%Q
  ∧ (0 <= interestSim A B <= 1)%Q
  ∧ (0 <= ageSim A B <= 1)%Q
  ∧ (0 <= engagementSim A B <= 1)%Q
  ∧ (if decide (city A = city B)
     then (1 # 10 <= calculateSimilarity A B)%Q
     else (calculateSimilarity A B <= 9 # 10)%Q).
Proof.
  pose proof (interestSim_range A B) as Hi.
  assert (0 <= ageSim A B <= 1)%Q as Ha by (apply closeness_range; lra).
  assert (0 <= engagementSim A B <= 1)%Q as He by (apply closeness_range; lra).
  assert (calculateSimilarity A B
          == (45 # 100) * interestSim A B + (25 # 100) * ageSim A B
             + (2 # 10) * engagementSim A B + cityBonus A B)%Q as Heq.
  { rewrite calculateSimilarity_terms. apply Q.min_r.
    destruct (cityBonus_cases A B) as [[_ ->]|[_ ->]]; lra. }
  repeat split; try tauto.
  unfold cityBonus in Heq.
  destruct (decide (city A = city B)); rewrite Heq; lra.
Qed.

(** ** More on recommendations *)

Lemma candidates_elem (targetUser : User) (allUsers : list User) (u : User) :
  u ∈ candidates targetUser allUsers ↔ userId u ≠ userId targetUser ∧ u ∈ allUsers.
Proof. unfold candidates. by rewrite list_elem_of_filter. Qed.

(** X7: the list is the top of the ranking.  It has [n] records, or all
    candidates when there are fewer; each record is the candidate it
    names together with its score, shared interests and reason; and a
    candidate left out scores no higher than any record returned. *)
Theorem getRecommendations_top (targetUser : User) (allUsers : list User)
    (n : nat) (u : User) :
  u ∈ allUsers →
  userId u ≠ userId targetUser →
  length (getRecommendations targetUser allUsers n)
  = Nat.min n (length (candidates targetUser allUsers))
  ∧ Forall (λ r, r = recommend targetUser (rec_user r) ∧ rec_user r ∈ allUsers)
           (getRecommendations targetUser allUsers n)
  ∧ (recommend targetUser u ∈ getRecommendations targetUser allUsers n
     ∨ Forall (λ r, (calculateSimilarity targetUser u <= similarity r)%Q)
              (getRecommendations targetUser allUsers n)).
Proof.
  intros Hu Hid. unfold getRecommendations.
  change by_similarity_desc with (descending_by similarity).
  set (s := js_sort _ _).
  assert (s ≡ₚ recommend targetUser <$> candidates targetUser allUsers) as Hperm
    by apply js_sort_perm.
  split; [|split].
  - rewrite length_take, (Permutation_length Hperm), length_fmap. done.
  - apply Forall_take. rewrite Hperm. apply Forall_fmap, Forall_forall.
    intros v [_ Hv]%candidates_elem. by split.
  - assert (recommend targetUser u ∈ s) as Hin.
    { rewrite Hperm. apply list_elem_of_fmap_2. by apply candidates_elem. }
    rewrite <- (take_drop n s) in Hin. apply elem_of_app in Hin as [Hin|Hin];
      [by left|right].
    apply Forall_forall. intros r Hr.
    assert (StronglySorted (λ a b, (similarity b <= similarity a)%Q) s) as Hs
      by apply js_sort_sorted.
    rewrite <- (take_drop n s) in Hs.
    apply (StronglySorted_app_1_elem_of _ _ _ r (recommend targetUser u)) in Hs; done.
Qed.

Lemma getRecommendations_top_witness :
  length (getRecommendations U1 [U1; U2; U3] 1)
  = Nat.min 1 (length (candidates U1 [U1; U2; U3]))
  ∧ Forall (λ r, r = recommend U1 (rec_user r) ∧ rec_user r ∈ [U1; U2; U3])
           (getRecommendations U1 [U1; U2; U3] 1)
  ∧ (recommend U1 U3 ∈ getRecommendations U1 [U1; U2; U3] 1
     ∨ Forall (λ r, (calculateSimilarity U1 U3 <= similarity r)%Q)
              (getRecommendations U1 [U1; U2; U3] 1)).
Proof.
  apply (getRecommendations_top U1 [U1; U2; U3] 1 U3).
  - listed.
  - discriminate.
Defined.

(** The reason given is true of the pair. *)
Lemma shared_interests_elem (user1 user2 : User) (i : string) :
  i ∈ shared_interests user1 user2
  ↔ i ∈ default [] (interests user1) ∧ i ∈ default [] (interests user2).
Proof. unfold shared_interests. rewrite list_elem_of_filter. tauto. Qed.

(** X8: whatever sentence [generateReason] picks is true of the two
    records: the interests it lists are interests of both, at least
    three of them being shared; the city, the segment it names is common
    to both; the ages are at most 5 years apart; the single interest is
    one of both.  The generic sentence is left for pairs with no shared
    interest, different cities, different segments and ages more than 5
    years apart. *)
Theorem generateReason_sound (user1 user2 : User) :
  match generateReason user1 user2 with
  | SharesInterests n first3 =>
      n = length (shared_interests user1 user2) ∧ 3 ≤ n ∧ length first3 = 3%nat
      ∧ first3 `prefix_of` shared_interests user1 user2
      ∧ Forall (λ i, i ∈ default [] (interests user1)
                     ∧ i ∈ default [] (interests user2)) first3
  | AlsoIn c => c = city user2 ∧ city user1 = city user2
  | SimilarProfile s => s = segment user1 ∧ segment user1 = segment user2
  | SimilarAgeGroup a =>
      a = age user2
      ∧ (Qabs (Js.or_q (age user1) 25 - Js.or_q (age user2) 25) <= 5)%Q
  | SharesInterest i =>
      ∃ tag, i = Some tag ∧ tag ∈ default [] (interests user1)
             ∧ tag ∈ default [] (interests user2)
  | SimilarEngagement =>
      shared_interests user1 user2 = []
      ∧ city user1 ≠ city user2 ∧ segment user1 ≠ segment user2
      ∧ (5 < Qabs (Js.or_q (age user1) 25 - Js.or_q (age user2) 25))%Q
  end.
Proof.
  unfold generateReason.
  destruct (Nat.leb_spec 3 (length (shared_interests user1 user2))) as [H3|H3].
  { split; [done|]. split; [done|]. split; [rewrite length_take; lia|].
    split; [apply prefix_take|].
    apply Forall_forall. intros i Hi. apply shared_interests_elem.
    by apply (subseteq_take 3). }
  destruct (decide (city user1 = city user2)) as [Hc|Hc]; [done|].
  destruct (decide (segment user1 = segment user2)) as [Hs|Hs]; [done|].
  destruct (Qle_bool _ 5) eqn:Ha.
  { split; [done|]. by apply Qle_bool_iff. }
  destruct (Nat.ltb_spec 0 (length (shared_interests user1 user2))) as [H0|H0].
  { destruct (shared_interests user1 user2) as [|tag rest] eqn:Hsh; [cbn in H0; lia|].
    exists tag. split; [done|]. apply shared_interests_elem. rewrite Hsh. by left. }
  split; [by destruct (shared_interests user1 user2); [|cbn in H0; lia]|].
  split; [done|]. split; [done|].
  destruct (Qlt_le_dec 5 (Qabs (Js.or_q (age user1) 25 - Js.or_q (age user2) 25)))
    as [|Hle]; [done|].
  apply Qle_bool_iff in Hle. congruence.
Qed.

(** ** Identifiers of synthesized records *)

(** A positive number is printed without a leading zero. *)
Lemma pretty_N_go_leading (x : N) (s : string) :
  (0 < x)%N → strip_zeros (pretty_N_go x s) = pretty_N_go x s.
Proof.
  revert s. induction (N.lt_wf_0 x) as [x _ IH]; intros s Hx.
  assert ((0 < x < 10) ∨ 10 ≤ x)%N as [[_ H10]|H10] by lia.
  - rewrite pretty_N_go_step by done.
    rewrite (N.div_small x 10), (N.mod_small x 10), pretty_N_go_0 by done.
    assert (x = 1 ∨ x = 2 ∨ x = 3 ∨ x = 4 ∨ x = 5 ∨ x = 6
            ∨ x = 7 ∨ x = 8 ∨ x = 9)%N as Hd by lia.
    destruct Hd as [->|[->|[->|[->|[->|[->|[->|[->| ->]]]]]]]]; reflexivity.
  - rewrite pretty_N_go_step by done. apply IH.
    + apply N.div_lt; lia.
    + apply N.div_str_pos; lia.
Qed.

Lemma pretty_nat_leading (n : nat) :
  (0 < n)%nat → strip_zeros (pretty n) = pretty n.
Proof.
  intros Hn. unfold pretty, pretty_nat, pretty, pretty_N.
  destruct (decide (N.of_nat n = 0%N)); [lia|].
  apply pretty_N_go_leading. lia.
Qed.

Lemma strip_zeros_padding (k : nat) (s : string) :
  strip_zeros (String.concat "" (replicate k "0") +:+ s) = strip_zeros s.
Proof.
  induction k as [|k IH]; [done|].
  assert (String.concat "" (replicate (S k) "0")
          = String "0" (String.concat "" (replicate k "0"))) as ->
    by (by destruct k).
  exact IH.
Qed.

(** Padding to four digits can be undone, so the identifiers of two
    loop indices differ. *)
Lemma synthetic_id_inj (i k : nat) : synthetic_id i = synthetic_id k → i = k.
Proof.
  unfold synthetic_id. intros Hid.
  assert (pad4 (pretty (i + 1)%nat) = pad4 (pretty (k + 1)%nat)) as H
    by (injection Hid; intros H; exact H).
  unfold pad4 in H. apply (f_equal strip_zeros) in H.
  rewrite !strip_zeros_padding, !pretty_nat_leading in H by lia.
  apply (inj pretty) in H. lia.
Qed.

Lemma synthesize_ids rng count i j :
  userId <$> (synthesize count i rng j).1 = synthetic_id <$> seq i count.
Proof.
  revert i j. induction count as [|count IH]; intros i j; [done|].
  cbn [synthesize seq]. unfold mbind, rand_bind, mret, rand_ret.
  pose proof (generateUser_userId i rng j) as Hid.
  destruct (generateUser i rng j) as [user j'].
  specialize (IH (S i) j'). destruct (synthesize count (S i) rng j') as [rest j''].
  cbn [fst fmap list_fmap] in *. by rewrite Hid, IH.
Qed.

Lemma performClustering_ids users :
  userId <$> performClustering users = userId <$> users.
Proof.
  unfold performClustering. change (map clusterUser users) with (clusterUser <$> users).
  rewrite <- list_fmap_compose. apply list_fmap_ext. intros _ u _.
  apply clusterUser_userId.
Qed.

Lemma filter_keeps_all {A} (P : A → Prop) `{!∀ x, Decision (P x)} (l : list A) :
  Forall P l → filter P l = l.
Proof.
  induction 1 as [|x l Hx _ IH]; [done|].
  by rewrite filter_cons_True, IH.
Qed.

(** With identifiers that are all different, leaving the target out
    leaves out one record. *)
Lemma candidates_length (targetUser : User) (allUsers : list User) :
  NoDup (userId <$> allUsers) → targetUser ∈ allUsers →
  S (length (candidates targetUser allUsers)) = length allUsers.
Proof.
  unfold candidates. induction allUsers as [|u l IH]; intros Hnd Hin.
  - by apply elem_of_nil in Hin.
  - cbn [fmap list_fmap] in Hnd. apply NoDup_cons in Hnd as [Hu Hnd].
    rewrite filter_cons. apply elem_of_cons in Hin as [->|Hin].
    + rewrite decide_False by (intros H; by apply H).
      cbn [length]. f_equal.
      assert (filter (λ user, userId user ≠ userId u) l = l) as ->; [|done].
      apply filter_keeps_all, Forall_forall. intros v Hv Heq.
      apply Hu. rewrite <- Heq. by apply list_elem_of_fmap_2.
    + rewrite decide_True.
      * cbn [length]. f_equal. by apply IH.
      * intros Heq. apply Hu. rewrite Heq. by apply list_elem_of_fmap_2.
Qed.

(** X9: the records synthesized for a population carry the identifiers
    U0001, U0002, ... in order, all different, also past 9999; so in a
    synthesized and clustered population of size n every record gets
    min(10, n - 1) recommendations: exactly 10 from 11 records on. *)
Theorem synthesized_population_recommendations (rng : nat → Q) (n : nat) :
  userId <$> performClustering (run (generateUserData None n) rng)
  = synthetic_id <$> seq 0 n
  ∧ NoDup (userId <$> performClustering (run (generateUserData None n) rng))
  ∧ Forall (λ targetUser,
              length (getRecommendations_default targetUser
                        (performClustering (run (generateUserData None n) rng)))
              = Nat.min 10 (n - 1))
           (performClustering (run (generateUserData None n) rng)).
Proof.
  set (users := performClustering _).
  assert (userId <$> users = synthetic_id <$> seq 0 n) as Hids.
  { subst users. rewrite performClustering_ids.
    unfold run, generateUserData. apply synthesize_ids. }
  assert (NoDup (userId <$> users)) as Hnd.
  { rewrite Hids. apply NoDup_fmap_2_strong; [|apply NoDup_seq].
    intros i k _ _. apply synthetic_id_inj. }
  split; [done|]. split; [done|].
  apply Forall_forall. intros t Ht.
  unfold getRecommendations_default, getRecommendations.
  rewrite length_take, js_sort_length, length_map.
  pose proof (candidates_length t users Hnd Ht) as Hc.
  assert (length users = n) as Hn.
  { rewrite <- (length_fmap userId), Hids, length_fmap. apply length_seq. }
  lia.
Qed.

(** The thousandth and the ten-thousandth identifier. *)
Example synthetic_id_samples :
  synthetic_id 0 = "U0001" ∧ synthetic_id 999 = "U1000"
  ∧ synthetic_id (10 * 1000 - 1) = "U10000".
Proof. vm_compute. done. Qed.

(** ** City distribution *)

Lemma tally_of_bump (c c' : string) (d : list (string * nat)) :
  tally_of c' (bump c d) = if decide (c' = c) then S (tally_of c d) else tally_of c' d.
Proof.
  induction d as [|[k v] r IH]; cbn [bump tally_of].
  - destruct (String.eqb_spec c c'); destruct (decide (c' = c)); congruence.
  - destruct (String.eqb_spec k c) as [->|Hkc]; cbn [tally_of].
    + destruct (String.eqb_spec c c'); destruct (decide (c' = c)); congruence.
    + destruct (String.eqb_spec k c') as [->|Hkc'].
      * by rewrite decide_False by congruence.
      * rewrite IH. by destruct (decide (c' = c)).
Qed.

Lemma bump_keys (c : string) (d : list (string * nat)) :
  (bump c d).*1 = if decide (c ∈ d.*1) then d.*1 else d.*1 ++ [c].
Proof.
  induction d as [|[k v] r IH]; cbn [bump fmap list_fmap fst].
  - rewrite decide_False by apply not_elem_of_nil. done.
  - destruct (String.eqb_spec k c) as [->|Hkc]; cbn [fmap list_fmap fst].
    + rewrite decide_True by (by left). done.
    + rewrite IH. destruct (decide (c ∈ r.*1)) as [Hin|Hin].
      * rewrite decide_True by (by right). done.
      * rewrite decide_False; [done|].
        intros [->|?]%elem_of_cons; done.
Qed.

Lemma bump_positive (c : string) (d : list (string * nat)) :
  Forall (λ p, 0 < p.2) d → Forall (λ p, 0 < p.2) (bump c d).
Proof.
  induction 1 as [|[k v] r Hv Hr IH]; cbn [bump].
  - repeat constructor.
  - destruct (String.eqb k c); constructor; cbn in *; (lia || done).
Qed.

Lemma tally_of_entry (d : list (string * nat)) (c : string) (k : nat) :
  NoDup d.*1 → (c, k) ∈ d → tally_of c d = k.
Proof.
  induction d as [|[k' v] r IH]; intros Hnd Hin; [by apply elem_of_nil in Hin|].
  cbn [fmap list_fmap fst] in Hnd. apply NoDup_cons in Hnd as [Hk Hnd].
  cbn [tally_of]. apply elem_of_cons in Hin as [[= <- <-]|Hin].
  - by rewrite String.eqb_refl.
  - destruct (String.eqb_spec k' c) as [->|]; [|by apply IH].
    exfalso. apply Hk. by apply (list_elem_of_fmap_2 fst _ (c, k)).
Qed.

Section Tally.
Context (users : list User).

Local Abbreviation file_user := (λ (d : list (string * nat)) (user : User),
                                   bump (city_key user) d).

Lemma tally_counts (c : string) (d : list (string * nat)) (l : list User) :
  tally_of c (foldl file_user d l) = (tally_of c d + city_count c l)%nat.
Proof.
  revert d. induction l as [|u l IH]; intros d; cbn [foldl].
  - unfold city_count. cbn. lia.
  - rewrite IH, tally_of_bump. unfold city_count. rewrite filter_cons.
    destruct (decide (c = city_key u)) as [->|Hne].
    + rewrite decide_True by done. cbn [length]. lia.
    + rewrite decide_False by congruence. lia.
Qed.

Lemma tally_positive (d : list (string * nat)) (l : list User) :
  Forall (λ p, 0 < p.2) d → Forall (λ p, 0 < p.2) (foldl file_user d l).
Proof.
  revert d. induction l as [|u l IH]; intros d Hd; [done|].
  cbn [foldl]. by apply IH, bump_positive.
Qed.

(** The keys of the object are the cities in the order in which they
    first occur. *)
Lemma tally_keys (d : list (string * nat)) (l : list User) :
  (foldl file_user d l).*1
  = d.*1 ++ filter (λ c, c ∉ d.*1) (set_values (city_key <$> l)).
Proof.
  revert d. induction l as [|u l IH]; intros d.
  - cbn. by rewrite app_nil_r.
  - cbn [foldl fmap list_fmap set_values]. rewrite IH, bump_keys, filter_cons.
    destruct (decide (city_key u ∈ d.*1)) as [Hin|Hin].
    + rewrite decide_False by (intros H; by apply H).
      f_equal. rewrite list_filter_filter. apply list_filter_iff.
      intros c. split; [|tauto]. intros Hc. split; [done|]. by intros ->.
    + rewrite decide_True by done. rewrite <- app_assoc. cbn [app]. do 2 f_equal.
      rewrite list_filter_filter. apply list_filter_iff. intros c.
      rewrite not_elem_of_app, list_elem_of_singleton. tauto.
Qed.
End Tally.

(** The object built by the [forEach] of [getCityDistribution]. *)
Lemma distribution_facts (users : list User) :
  let d := foldl (λ d user, bump (city_key user) d) [] users in
  d.*1 = set_values (city_key <$> users)
  ∧ NoDup d.*1
  ∧ Forall (λ p, p.2 = city_count p.1 users ∧ 0 < p.2) d.
Proof.
  intros d.
  assert (d.*1 = set_values (city_key <$> users)) as Hkeys.
  { subst d. rewrite tally_keys. cbn [fmap list_fmap app].
    apply filter_keeps_all, Forall_forall. intros c _. apply not_elem_of_nil. }
  assert (NoDup d.*1) as Hnd by (rewrite Hkeys; apply set_values_NoDup).
  split; [done|]. split; [done|].
  pose proof (tally_positive [] users (Forall_nil_2 _)) as Hpos. fold d in Hpos.
  apply Forall_forall. intros [c k] Hin. cbn [fst snd].
  split; [|by apply (proj1 (Forall_forall _ _) Hpos (c, k))].
  rewrite <- (tally_of_entry d c k Hnd Hin). subst d.
  by rewrite tally_counts.
Qed.

Lemma count_order (a b : nat) :
  (inject_Z (Z.of_nat b) <= inject_Z (Z.of_nat a))%Q ↔ b ≤ a.
Proof. rewrite <- Zle_Qle. lia. Qed.

Lemma sorted_weaken {A} (R R' : A → A → Prop) (l : list A) :
  (∀ a b, R a b → R' a b) → StronglySorted R l → StronglySorted R' l.
Proof.
  intros HR. induction 1 as [|x l _ IH Hx]; constructor; [done|].
  eapply Forall_impl; [exact Hx|]. intros b. apply HR.
Qed.

Lemma filter_none {A} (P : A → Prop) `{!∀ x, Decision (P x)} (l : list A) :
  Forall (λ x, ¬ P x) l → filter P l = [].
Proof.
  induction 1 as [|x l Hx _ IH]; [done|].
  by rewrite filter_cons_False, IH.
Qed.

Lemma filter_comm {A} (P Q' : A → Prop) `{!∀ x, Decision (P x), !∀ x, Decision (Q' x)}
    (l : list A) :
  filter P (filter Q' l) = filter Q' (filter P l).
Proof.
  rewrite !list_filter_filter. apply list_filter_iff. intros x. tauto.
Qed.

(** [own_entries] moves the properties named by an array index to the
    front and leaves the others in their order. *)
Lemma own_entries_named {V} (l : list (string * V)) :
  filter named (own_entries l) = filter named l.
Proof.
  unfold own_entries. rewrite filter_app.
  rewrite (filter_none named (merge_sort _ _)).
  - cbn [app]. by apply list_filter_filter_l.
  - rewrite merge_sort_Permutation. apply Forall_forall.
    intros entry [Hindex _]%list_elem_of_filter. unfold named.
    rewrite eq_None_not_Some. tauto.
Qed.

Lemma own_entries_plain {V} (l : list (string * V)) :
  Forall named l → own_entries l = l.
Proof.
  intros Hl. unfold own_entries.
  rewrite (filter_none (λ entry, is_Some (array_index entry.1)) l).
  - cbn. by apply filter_keeps_all.
  - eapply Forall_impl; [exact Hl|]. intros entry. unfold named.
    by rewrite eq_None_not_Some.
Qed.

#[local] Instance index_before_trans {V} : Transitive (@index_before V).
Proof. intros a b c. unfold index_before. lia. Qed.

#[local] Instance index_before_total {V} : Total (@index_before V).
Proof. intros a b. unfold index_before. lia. Qed.

Lemma own_entries_split {V} (l : list (string * V)) :
  ∃ indexed,
    own_entries l = indexed ++ filter named (own_entries l)
    ∧ Forall (λ entry, is_Some (array_index entry.1)) indexed
    ∧ StronglySorted index_before indexed.
Proof.
  exists (merge_sort index_before (filter (λ entry, is_Some (array_index entry.1)) l)).
  split; [|split].
  - rewrite own_entries_named. reflexivity.
  - rewrite merge_sort_Permutation. apply Forall_forall.
    by intros entry [Hindex _]%list_elem_of_filter.
  - apply StronglySorted_merge_sort; apply _.
Qed.

Lemma sorted_filter {A} (R : A → A → Prop) (P : A → Prop) `{!∀ x, Decision (P x)}
    (l : list A) :
  StronglySorted R l → StronglySorted R (filter P l).
Proof.
  induction 1 as [|x l _ IH Hx]; [constructor|].
  rewrite filter_cons. destruct (decide (P x)); [|done].
  constructor; [done|]. apply Forall_forall.
  intros y [_ Hy]%list_elem_of_filter. by apply (proj1 (Forall_forall _ _) Hx).
Qed.

Lemma getCityDistribution_unfold (users : list User) :
  getCityDistribution users
  = own_entries
      (take 8 (js_sort (descending_by (λ a : string * nat, inject_Z (Z.of_nat a.2)))
                       (own_entries (foldl (λ d user, bump (city_key user) d) [] users)))).
Proof. reflexivity. Qed.

(** The entries are those of the first 8 of a descending arrangement of
    the tally, as the returned object lists them. *)
Lemma getCityDistribution_sorted (users : list User) :
  ∃ s, s ≡ₚ foldl (λ d user, bump (city_key user) d) [] users
    ∧ StronglySorted (λ a b : string * nat, b.2 ≤ a.2) s
    ∧ getCityDistribution users = own_entries (take 8 s).
Proof.
  rewrite getCityDistribution_unfold.
  exists (js_sort (descending_by (λ a : string * nat, inject_Z (Z.of_nat a.2)))
                  (own_entries (foldl (λ d user, bump (city_key user) d) [] users))).
  split; [by rewrite js_sort_perm, own_entries_perm|]. split; [|reflexivity].
  eapply sorted_weaken; [|apply js_sort_sorted].
  intros a b. cbn. apply count_order.
Qed.

(** X10: [getCityDistribution] returns at most 8 entries, no city
    twice; the count of an entry is the number of users of that city,
    users without a city counting as 'Unknown', and is never 0.  The
    returned object lists the cities whose name is an array index first,
    in ascending order of index, and then the other cities in descending
    order of count; so the whole list is in descending order of count
    when no city name is an array index. *)
Theorem getCityDistribution_counts (users : list User) :
  length (getCityDistribution users)
  = Nat.min 8 (length (set_values (city_key <$> users)))
  ∧ NoDup (getCityDistribution users).*1
  ∧ Forall (λ p, p.2 = city_count p.1 users ∧ 0 < p.2) (getCityDistribution users)
  ∧ (∃ indexed,
       getCityDistribution users = indexed ++ filter named (getCityDistribution users)
       ∧ Forall (λ entry, is_Some (array_index entry.1)) indexed
       ∧ StronglySorted index_before indexed)
  ∧ StronglySorted (λ a b : string * nat, b.2 ≤ a.2)
                   (filter named (getCityDistribution users))
  ∧ (Forall (λ user, array_index (city_key user) = None) users →
     StronglySorted (λ a b : string * nat, b.2 ≤ a.2) (getCityDistribution users)).
Proof.
  destruct (getCityDistribution_sorted users) as (s & Hperm & Hsorted & ->).
  destruct (distribution_facts users) as (Hkeys & Hnd & Hall).
  rewrite <- Hperm in Hnd, Hall.
  assert (StronglySorted (λ a b : string * nat, b.2 ≤ a.2) (take 8 s)) as Htop.
  { rewrite <- (take_drop 8 s) in Hsorted. by apply StronglySorted_app_1_l in Hsorted. }
  split; [|split; [|split; [|split; [|split]]]].
  - rewrite own_entries_length, length_take, (Permutation_length Hperm).
    by rewrite <- Hkeys, length_fmap.
  - rewrite own_entries_perm.
    rewrite <- (take_drop 8 s), fmap_app in Hnd. by apply NoDup_app in Hnd as [? _].
  - rewrite own_entries_perm. by apply Forall_take.
  - apply own_entries_split.
  - rewrite own_entries_named. by apply sorted_filter.
  - intros Hplain. rewrite own_entries_plain; [done|].
    apply Forall_take. rewrite Hperm. apply Forall_forall.
    intros [c k] Hin. unfold named. cbn [fst].
    assert (c ∈ set_values (city_key <$> users)) as Hc.
    { rewrite <- Hkeys. by apply (list_elem_of_fmap_2 fst _ (c, k)). }
    rewrite set_values_elem in Hc.
    apply list_elem_of_fmap in Hc as (user & -> & Huser).
    by apply (proj1 (Forall_forall _ _) Hplain).
Qed.

(** X11: the entries are the most frequent cities: the city of any user
    is listed, or is the city of no more users than each listed one. *)
Theorem getCityDistribution_top (users : list User) (u : User) :
  u ∈ users →
  city_key u ∈ (getCityDistribution users).*1
  ∨ Forall (λ p, city_count (city_key u) users ≤ p.2) (getCityDistribution users).
Proof.
  intros Hu.
  destruct (getCityDistribution_sorted users) as (s & Hperm & Hsorted & ->).
  destruct (distribution_facts users) as (Hkeys & Hnd & Hall).
  rewrite <- Hperm in Hall. rewrite own_entries_perm.
  assert (city_key u ∈ s.*1) as Hin.
  { rewrite Hperm, Hkeys. apply set_values_elem. by apply list_elem_of_fmap_2. }
  apply list_elem_of_fmap in Hin as ([c k] & Hc & Hin). cbn in Hc. subst c.
  rewrite <- (take_drop 8 s) in Hin. apply elem_of_app in Hin as [Hin|Hin].
  - left. by apply (list_elem_of_fmap_2 fst _ (city_key u, k)).
  - right. apply Forall_forall. intros p Hp.
    assert ((city_key u, k) ∈ s) as Hs by (by apply (subseteq_drop 8 s)).
    apply (proj1 (Forall_forall _ _) Hall) in Hs as [Hk _]. cbn in Hk. rewrite <- Hk.
    rewrite <- (take_drop 8 s) in Hsorted.
    by apply (StronglySorted_app_1_elem_of _ _ _ p (city_key u, k)) in Hsorted.
Qed.

Lemma getCityDistribution_top_witness :
  city_key U2 ∈ (getCityDistribution [U1; U2; U3]).*1
  ∨ Forall (λ p, city_count (city_key U2) [U1; U2; U3] ≤ p.2)
           (getCityDistribution [U1; U2; U3]).
Proof. apply (getCityDistribution_top [U1; U2; U3] U2). listed. Defined.

Lemma fmap_filter_fst (P : string * nat → Prop) (Q' : string → Prop)
    `{!∀ p, Decision (P p), !∀ c, Decision (Q' c)} (d : list (string * nat)) :
  Forall (λ p, P p ↔ Q' p.1) d → (filter P d).*1 = filter Q' d.*1.
Proof.
  induction 1 as [|p d Hp _ IH]; [done|].
  cbn [fmap list_fmap]. rewrite !filter_cons.
  destruct (decide (P p)), (decide (Q' p.1)); cbn [fmap list_fmap]; try tauto;
    by rewrite IH.
Qed.

(** X12: among the cities whose name is not an array index, those of
    equal count keep the order in which they first occur among the
    users. *)
Theorem getCityDistribution_ties (users : list User) (v : nat) :
  (filter (λ p, p.2 = v) (filter named (getCityDistribution users))).*1
  `prefix_of` filter (λ c, city_count c users = v)
                     (filter (λ c, array_index c = None)
                             (set_values (city_key <$> users))).
Proof.
  destruct (distribution_facts users) as (Hkeys & _ & Hall). cbn zeta in *.
  rewrite getCityDistribution_unfold, own_entries_named.
  set (d := foldl _ [] users) in *.
  set (s := js_sort _ (own_entries d)).
  destruct (filter_take_prefix (λ p : string * nat, p.2 = v) 8 s) as [rest Hrest].
  exists ((filter named rest).*1).
  rewrite <- fmap_app, (filter_comm (λ p : string * nat, p.2 = v) named (take 8 s)),
    <- filter_app, <- Hrest. subst s.
  assert (∀ l : list (string * nat),
            filter (λ p, p.2 = v) l
            = filter (λ p, Qeq_bool (inject_Z (Z.of_nat p.2)) (inject_Z (Z.of_nat v))) l)
    as Hpred.
  { intros l. apply list_filter_iff. intros p.
    rewrite Is_true_true, Qeq_bool_iff, inject_Z_injective. lia. }
  rewrite Hpred, (js_sort_ties (λ a : string * nat, inject_Z (Z.of_nat a.2))), <- Hpred.
  rewrite <- (filter_comm _ named), own_entries_named.
  rewrite <- Hkeys. symmetry.
  rewrite <- (fmap_filter_fst named (λ c, array_index c = None) d)
    by (apply Forall_forall; intros p _; reflexivity).
  apply fmap_filter_fst. apply Forall_forall.
  intros p [_ Hp]%list_elem_of_filter.
  apply (proj1 (Forall_forall _ _) Hall) in Hp as [Hp _]. cbn beta. by rewrite Hp.
Qed.

(** Five users, three cities: the two cities of two users come first,
    in the order of their first users. *)
Example city_distribution_sample :
  getCityDistribution
    [ U3; U1; U2; sample_user "U4" 30 100 100 "Paris" ["food"];
      sample_user "U5" 30 100 100 "Dubai" ["food"] ]
  = [("Dubai", 2%nat); ("Paris", 2%nat); ("Tokyo", 1%nat)].
Proof. vm_compute. reflexivity. Qed.

(** A city named "7" is listed first, although 'Paris' has more users,
    and before a city named "10". *)
Example city_distribution_index_first :
  getCityDistribution
    [ sample_user "U1" 30 100 100 "Paris" ["food"];
      sample_user "U2" 30 100 100 "10" ["food"];
      sample_user "U3" 30 100 100 "Paris" ["food"];
      sample_user "U4" 30 100 100 "7" ["food"];
      sample_user "U5" 30 100 100 "07" ["food"] ]
  = [("7", 1%nat); ("10", 1%nat); ("Paris", 2%nat); ("07", 1%nat)].
Proof. vm_compute. reflexivity. Qed.

(** ** Hourly curve and weekly trend *)

Lemma hours_from_points rng count i j :
  (hours_from count i rng j).1
  = (λ k, mkHourPoint (i + k) (baseEngagement (i + k) + Js.floor (rng (j + k)%nat * 50))%Q)
      <$> seq 0 count.
Proof.
  revert i j. induction count as [|count IH]; intros i j; [done|].
  cbn [hours_from seq]. step_rand.
  specialize (IH (S i) (S j)). destruct (hours_from count (S i) rng (S j)) as [rest j'].
  cbn [fst fmap list_fmap] in *. rewrite IH, !Nat.add_0_r. f_equal.
  rewrite <- fmap_S_seq, <- list_fmap_compose. apply list_fmap_ext.
  intros _ k _. cbn. by rewrite !Nat.add_succ_r.
Qed.

Lemma baseEngagement_levels (h : nat) :
  if (18 <=? h)%nat && (h <=? 22)%nat
  then baseEngagement h = 350%Q
  else (50 <= baseEngagement h <= 250)%Q.
Proof.
  unfold baseEngagement.
  destruct (Nat.leb_spec 18 h), (Nat.leb_spec h 22), (Nat.leb_spec 9 h),
    (Nat.leb_spec h 11), (Nat.leb_spec 12 h), (Nat.leb_spec h 14),
    (Nat.leb_spec 0 h), (Nat.leb_spec h 6); cbn; try lia; try done; lra.
Qed.

Lemma baseEngagement_evening (h : nat) :
  18 ≤ h ≤ 22 → baseEngagement h = 350%Q.
Proof.
  intros Hh. pose proof (baseEngagement_levels h) as H.
  destruct (Nat.leb_spec 18 h), (Nat.leb_spec h 22); try lia. exact H.
Qed.

Lemma baseEngagement_other (h : nat) :
  ¬ 18 ≤ h ≤ 22 → (50 <= baseEngagement h <= 250)%Q.
Proof.
  intros Hh. pose proof (baseEngagement_levels h) as H.
  destruct (Nat.leb_spec 18 h), (Nat.leb_spec h 22); try lia; exact H.
Qed.

(** X13: the hourly curve has 24 points for the hours 0 to 23 in order;
    each engagement lies within 50 above the base level of its hour; and
    every hour from 18 to 22 has a higher engagement than every other
    hour, so the busiest hour is always one of them. *)
Theorem getEngagementByHour_curve (rng : nat → Q) (j : nat) :
  unit_range rng →
  hp_hour <$> (getEngagementByHour rng j).1 = seq 0 24
  ∧ Forall (λ p, (baseEngagement (hp_hour p) <= hp_engagement p
                  < baseEngagement (hp_hour p) + 50)%Q)
           (getEngagementByHour rng j).1
  ∧ Forall (λ p, 18 ≤ hp_hour p ≤ 22 →
              Forall (λ q, ¬ 18 ≤ hp_hour q ≤ 22 →
                        (hp_engagement q < hp_engagement p)%Q)
                     (getEngagementByHour rng j).1)
           (getEngagementByHour rng j).1.
Proof.
  intros Hrng. unfold getEngagementByHour. rewrite hours_from_points.
  assert (Forall (λ p, (baseEngagement (hp_hour p) <= hp_engagement p
                        < baseEngagement (hp_hour p) + 50)%Q)
            ((λ k, mkHourPoint (0 + k)
                     (baseEngagement (0 + k) + Js.floor (rng (j + k)%nat * 50))%Q)
               <$> seq 0 24)) as Hrange.
  { apply Forall_fmap, Forall_forall. intros k _. cbn.
    pose proof (floor_scaled_range _ 50 (Hrng (j + k)%nat)). lra. }
  split; [|split; [done|]].
  - reflexivity.
  - rewrite Forall_forall in Hrange.
    apply Forall_forall. intros p Hp Hevening.
    apply Forall_forall. intros q Hq Hother.
    pose proof (Hrange p Hp) as Hpr. pose proof (Hrange q Hq) as Hqr.
    rewrite (baseEngagement_evening _ Hevening) in Hpr.
    pose proof (baseEngagement_other _ Hother). lra.
Qed.

Lemma getEngagementByHour_curve_witness :
  hp_hour <$> (getEngagementByHour rng_fractional_likes 7).1 = seq 0 24
  ∧ Forall (λ p, (baseEngagement (hp_hour p) <= hp_engagement p
                  < baseEngagement (hp_hour p) + 50)%Q)
           (getEngagementByHour rng_fractional_likes 7).1
  ∧ Forall (λ p, 18 ≤ hp_hour p ≤ 22 →
              Forall (λ q, ¬ 18 ≤ hp_hour q ≤ 22 →
                        (hp_engagement q < hp_engagement p)%Q)
                     (getEngagementByHour rng_fractional_likes 7).1)
           (getEngagementByHour rng_fractional_likes 7).1.
Proof.
  apply (getEngagementByHour_curve rng_fractional_likes 7).
  intros i. unfold rng_fractional_likes, spike. destruct (i =? 6)%nat; lra.
Defined.

Lemma week_of_days rng days j : dp_day <$> (week_of days rng j).1 = days.
Proof.
  revert j. induction days as [|day more IH]; intros j; [done|].
  cbn [week_of]. step_rand.
  specialize (IH (S (S j))). destruct (week_of more rng (S (S j))) as [rest j'].
  cbn [fst fmap list_fmap dp_day] in *. by rewrite IH.
Qed.

Lemma week_of_ranges rng days j :
  unit_range rng →
  Forall (λ p, (70 <= dp_engagement p < 100)%Q ∧ (100 <= dp_followers p < 600)%Q)
         (week_of days rng j).1.
Proof.
  intros Hrng. revert j. induction days as [|day more IH]; intros j; [constructor|].
  cbn [week_of]. step_rand.
  specialize (IH (S (S j))). destruct (week_of more rng (S (S j))) as [rest j'].
  cbn [fst] in *. constructor; [|done]. cbn.
  pose proof (floor_scaled_range _ 30 (Hrng j)).
  pose proof (floor_scaled_range _ 500 (Hrng (S j))).
  lra.
Qed.

(** X14: the weekly trend has one point for each day from Monday to
    Sunday, in this order, with an engagement in [70, 100) and a
    followers figure in [100, 600). *)
Theorem getWeeklyTrend_week (rng : nat → Q) (j : nat) :
  unit_range rng →
  dp_day <$> (getWeeklyTrend rng j).1
  = ["Mon"; "Tue"; "Wed"; "Thu"; "Fri"; "Sat"; "Sun"]
  ∧ Forall (λ p, (70 <= dp_engagement p < 100)%Q ∧ (100 <= dp_followers p < 600)%Q)
           (getWeeklyTrend rng j).1.
Proof.
  intros Hrng. unfold getWeeklyTrend. split.
  - apply week_of_days.
  - by apply week_of_ranges.
Qed.

Lemma getWeeklyTrend_week_witness :
  dp_day <$> (getWeeklyTrend rng_high_influence 3).1
  = ["Mon"; "Tue"; "Wed"; "Thu"; "Fri"; "Sat"; "Sun"]
  ∧ Forall (λ p, (70 <= dp_engagement p < 100)%Q ∧ (100 <= dp_followers p < 600)%Q)
           (getWeeklyTrend rng_high_influence 3).1.
Proof.
  apply (getWeeklyTrend_week rng_high_influence 3).
  intros i. unfold rng_high_influence, spike. destruct (i =? 10)%nat; lra.
Defined.

(** ** Looking a segment up in the statistics *)

Lemma segment_keys_NoDup (users : list User) :
  Forall (λ u, is_Some (segment u)) users →
  NoDup (key_of <$> set_values (map segment users)).
Proof.
  intros Hall. apply NoDup_fmap_2_strong; [|apply set_values_NoDup].
  intros x y Hx Hy.
  apply (proj1 (set_values_elem _ _)) in Hx.
  apply (proj1 (set_values_elem _ _)) in Hy.
  rewrite Forall_forall in Hall.
  apply list_elem_of_fmap in Hx as (ux & -> & Hux), Hy as (uy & -> & Huy).
  destruct (Hall _ Hux) as [sx ->], (Hall _ Huy) as [sy ->]. cbn. congruence.
Qed.

Lemma segment_stat_occurs (users : list User) (n : option string) (st : SegmentStat) :
  segment_stat users n = Some st →
  n ∈ set_values (map segment users)
  ∧ st_name st = n ∧ st_color st = catalog_color n
  ∧ st_count st = length (filter (λ u, segment u = n) users) ∧ 0 < st_count st.
Proof.
  unfold segment_stat. destruct (Nat.ltb_spec 0 (length (filter (λ u, segment u = n) users)))
    as [Hc|Hc]; [|discriminate].
  intros [= <-]. cbn. split; [|done].
  destruct (filter (λ u, segment u = n) users) as [|u rest] eqn:Hf; [cbn in Hc; lia|].
  assert (u ∈ filter (λ u, segment u = n) users) as Hu by (rewrite Hf; by left).
  apply list_elem_of_filter in Hu as [<- Hu]. by apply segment_names_cover.
Qed.

Lemma getSegmentStats_lookup_iff (users : list User) (name : string) (st : SegmentStat) :
  Forall (λ u, is_Some (segment u)) users →
  getSegmentStats users !! name = Some st ↔ segment_stat users (Some name) = Some st.
Proof.
  intros Hall. rewrite <- elem_of_map_to_list. unfold getSegmentStats.
  rewrite stats_entries; [|by apply segment_keys_NoDup|intros; apply lookup_empty].
  rewrite map_to_list_empty, app_nil_r, list_elem_of_omap. split.
  - intros (n & Hn & Hentry).
    destruct (segment_stat users n) as [st'|] eqn:Hst; [|discriminate].
    cbn in Hentry. injection Hentry as Hkey ->.
    apply (proj1 (set_values_elem _ _)) in Hn.
    apply list_elem_of_fmap in Hn as (u & -> & Hu).
    rewrite Forall_forall in Hall. destruct (Hall _ Hu) as [s Hs].
    rewrite Hs in *. cbn in Hkey. by subst s.
  - intros Hst. exists (Some name). split.
    + by apply (segment_stat_occurs users _ st).
    + by rewrite Hst.
Qed.

(** X15: when every user carries a segment, the statistics hold an
    entry under a name exactly when some user has that segment; the
    entry bears the name and the catalog's colour for it (grey for a name
    the catalog does not know), and its count is the number of those
    users. *)
Theorem getSegmentStats_entries (users : list User) (name : string) :
  Forall (λ u, is_Some (segment u)) users →
  getSegmentStats users !! name = segment_stat users (Some name)
  ∧ match getSegmentStats users !! name with
    | Some st =>
        st_name st = Some name
        ∧ st_color st = catalog_color (Some name)
        ∧ st_count st = length (filter (λ u, segment u = Some name) users)
        ∧ 0 < st_count st
    | None => Forall (λ u, segment u ≠ Some name) users
    end.
Proof.
  intros Hall.
  assert (getSegmentStats users !! name = segment_stat users (Some name)) as Heq.
  { apply option_eq. intros st. by apply getSegmentStats_lookup_iff. }
  split; [done|]. rewrite Heq.
  destruct (segment_stat users (Some name)) as [st|] eqn:Hst.
  - by apply segment_stat_occurs in Hst as (_ & ? & ? & ? & ?).
  - apply Forall_forall. intros u Hu Hseg.
    pose proof (segment_stat_count users (Some name)) as Hc. rewrite Hst in Hc. cbn in Hc.
    assert (u ∈ filter (λ u, segment u = Some name) users) as Hin
      by (by apply list_elem_of_filter).
    destruct (filter (λ u, segment u = Some name) users); [by apply elem_of_nil in Hin|].
    cbn in Hc. lia.
Qed.

Lemma getSegmentStats_entries_witness :
  getSegmentStats crowd16 !! "Casual Users" = segment_stat crowd16 (Some "Casual Users")
  ∧ match getSegmentStats crowd16 !! "Casual Users" with
    | Some st =>
        st_name st = Some "Casual Users"
        ∧ st_color st = catalog_color (Some "Casual Users")
        ∧ st_count st = length (filter (λ u, segment u = Some "Casual Users") crowd16)
        ∧ 0 < st_count st
    | None => Forall (λ u, segment u ≠ Some "Casual Users") crowd16
    end.
Proof. apply (getSegmentStats_entries crowd16 "Casual Users"). decide_holds. Defined.

(** ** Refresh and user selection *)

(** X16: [initializeData] assigns every cell of the state on each of
    its paths, so the state after a start or a refresh does not depend on
    the state before it: nothing of an earlier session survives. *)
Theorem initializeData_overwrites (be : App.Backend) (kaggleData : option (list User))
    (s1 s2 : App.State) (rng : nat → Q) :
  run (handleRefresh be kaggleData s1) rng = run (handleRefresh be kaggleData s2) rng.
Proof.
  unfold run, handleRefresh, App.initializeData.
  destruct (App.checkAPIHealth be).
  - destruct (App.remote_sequence be) as [[[[[users stats] cities] hourly] weekly]|].
    + destruct (head users) as [first|]; [|reflexivity].
      destruct (App.fetchRecommendationsFromAPI be (userId first)); reflexivity.
    + unfold App.fallback, mbind, rand_bind, mret, rand_ret.
      destruct (generateUserData kaggleData 500 rng 0%nat) as [raw j1].
      destruct (getEngagementByHour rng j1) as [hourly j2].
      destruct (getWeeklyTrend rng j2) as [weekly j3]. reflexivity.
  - unfold mbind, rand_bind, mret, rand_ret.
    destruct (generateUserData kaggleData 1000 rng 0%nat) as [raw j1].
    destruct (getEngagementByHour rng j1) as [hourly j2].
    destruct (getWeeklyTrend rng j2) as [weekly j3]. reflexivity.
Qed.

(** X17: after a start with an unavailable backend, selecting a user
    never consults the backend, whatever it would answer by then: the
    user becomes the selected one, the population stays, the session
    stays LOCAL, and the recommendations are the local ones for that user
    over the local population. *)
Theorem selection_after_local_start (be0 be1 : App.Backend) (s : App.State)
    (rng : nat → Q) (user : User) :
  App.checkAPIHealth be0 = false →
  App.recommendations
    (handleUserSelect be1 user (run (App.initializeData be0 None s) rng))
  = Local (getRecommendations_default user (run (local_data 1000) rng).1.1)
  ∧ App.selectedUser
      (handleUserSelect be1 user (run (App.initializeData be0 None s) rng))
    = Some user
  ∧ App.users (handleUserSelect be1 user (run (App.initializeData be0 None s) rng))
    = (run (local_data 1000) rng).1.1
  ∧ App.usingAPI (handleUserSelect be1 user (run (App.initializeData be0 None s) rng))
    = false.
Proof.
  intros Hprobe.
  destruct (initializeData_unavailable be0 s rng Hprobe) as (Hu & Hl & Hd).
  set (s0 := run (App.initializeData be0 None s) rng) in *.
  destruct Hd as (Husers & _).
  unfold handleUserSelect. rewrite Hu, <- Husers. cbn. by rewrite Hu.
Qed.

Lemma selection_after_local_start_witness :
  App.recommendations
    (handleUserSelect backend_up U1
       (run (App.initializeData backend_unreachable None App.initial)
            rng_fractional_likes))
  = Local (getRecommendations_default U1
             (run (local_data 1000) rng_fractional_likes).1.1)
  ∧ App.selectedUser
      (handleUserSelect backend_up U1
         (run (App.initializeData backend_unreachable None App.initial)
              rng_fractional_likes))
    = Some U1
  ∧ App.users
      (handleUserSelect backend_up U1
         (run (App.initializeData backend_unreachable None App.initial)
              rng_fractional_likes))
    = (run (local_data 1000) rng_fractional_likes).1.1
  ∧ App.usingAPI
      (handleUserSelect backend_up U1
         (run (App.initializeData backend_unreachable None App.initial)
              rng_fractional_likes))
    = false.
Proof.
  apply (selection_after_local_start backend_unreachable backend_up App.initial
           rng_fractional_likes U1).
  reflexivity.
Defined.

(** X18: after a start that fell back to local data because a request
    threw, selecting a user still asks the backend for recommendations:
    its answer, if it gives one, is shown beside the synthesized
    population, and only its failure yields local recommendations. *)
Theorem selection_after_fallback (be0 be1 : App.Backend) (s : App.State)
    (rng : nat → Q) (user : User) :
  App.checkAPIHealth be0 = true →
  App.remote_sequence be0 = Thrown →
  holds_local_data (run (App.initializeData be0 None s) rng)
                   (run (local_data 500) rng)
  ∧ App.users (handleUserSelect be1 user (run (App.initializeData be0 None s) rng))
    = (run (local_data 500) rng).1.1
  ∧ App.recommendations
      (handleUserSelect be1 user (run (App.initializeData be0 None s) rng))
    = match App.fetchRecommendationsFromAPI be1 (userId user) with
      | Returned recs => Remote recs
      | Thrown =>
          Local (getRecommendations_default user (run (local_data 500) rng).1.1)
      end.
Proof.
  intros Hprobe Hseq.
  pose proof (remote_failure_keeps_usingAPI be0 s rng Hprobe Hseq) as Hflag.
  rewrite initializeData_remote_throws in * by done.
  destruct (fallback_local
              (App.setUsingAPI true
                 (App.setLoadingStatus App.ConnectedToBackend
                    (App.setLoadingProgress 5
                       (App.setLoadingProgress 0 (App.setLoading true s))))) rng)
    as (_ & _ & Hd).
  set (s0 := run (App.fallback None _) rng) in *.
  split; [done|]. destruct Hd as (Hu & _).
  unfold handleUserSelect. rewrite Hflag, <- Hu.
  by destruct (App.fetchRecommendationsFromAPI be1 (userId user)).
Qed.

Lemma selection_after_fallback_witness :
  holds_local_data
    (run (App.initializeData backend_failing_midway None App.initial)
         rng_fractional_likes)
    (run (local_data 500) rng_fractional_likes)
  ∧ App.users
      (handleUserSelect backend_up U1
         (run (App.initializeData backend_failing_midway None App.initial)
              rng_fractional_likes))
    = (run (local_data 500) rng_fractional_likes).1.1
  ∧ App.recommendations
      (handleUserSelect backend_up U1
         (run (App.initializeData backend_failing_midway None App.initial)
              rng_fractional_likes))
    = match App.fetchRecommendationsFromAPI backend_up (userId U1) with
      | Returned recs => Remote recs
      | Thrown =>
          Local (getRecommendations_default U1
                   (run (local_data 500) rng_fractional_likes).1.1)
      end.
Proof.
  apply (selection_after_fallback backend_failing_midway backend_up App.initial
           rng_fractional_likes U1); reflexivity.
Defined.

(** ** Users obtained from the backend *)

Lemma or_str_truthy (s : option string) (d : string) :
  Js.truthy_str (Some d) = true → Js.truthy_str (Some (Js.or_str s d)) = true.
Proof.
  intros Hd. unfold Js.or_str. destruct s as [t|]; [|done].
  destruct (Js.truthy_str (Some t)) eqn:Ht; done.
Qed.

Lemma mapUser_has_segment capitalize split_trim (row : ApiUser) :
  has_segment (Remote.mapUser capitalize split_trim row) = true.
Proof.
  unfold has_segment. cbn [segment segmentColor Remote.mapUser].
  unfold getSegmentColor. by rewrite !or_str_truthy.
Qed.

(** X19: every record that [fetchUsersFromAPI] returns carries a
    non-empty segment and colour, 'Unknown' and grey when the row has no
    segment name; so [performClustering] leaves a fetched population as
    it is, whatever its counters are. *)
Theorem fetched_users_keep_segments capitalize split_trim
    (fetched : Outcome (Response (list ApiUser))) (users : list User) :
  Remote.fetchUsersFromAPI capitalize split_trim fetched = Returned users →
  performClustering users = users
  ∧ Forall (λ user, has_segment user = true) users
  ∧ ∃ rows, fetched = Returned (mkResponse true (Returned rows))
      ∧ Forall2 (λ row user,
                   userId user = user_id row
                   ∧ (Js.truthy_str (segment_name row) = false →
                      segment user = Some "Unknown"
                      ∧ segmentColor user = Some "#6b7280"))
                rows users.
Proof.
  unfold Remote.fetchUsersFromAPI.
  destruct fetched as [[ok [rows|]]|]; try destruct ok; try discriminate.
  cbn. intros [= <-].
  change (map (Remote.mapUser capitalize split_trim) rows)
    with (Remote.mapUser capitalize split_trim <$> rows).
  assert (Forall (λ user, has_segment user = true)
            (Remote.mapUser capitalize split_trim <$> rows)) as Hall.
  { apply Forall_fmap, Forall_forall. intros row _. apply mapUser_has_segment. }
  split; [|split; [done|]].
  - unfold performClustering.
    change (map clusterUser ?l) with (clusterUser <$> l).
    rewrite <- (list_fmap_id (Remote.mapUser capitalize split_trim <$> rows)) at 2.
    apply Forall_fmap_ext_1. eapply Forall_impl; [exact Hall|].
    intros user Hu. unfold clusterUser. by rewrite Hu.
  - exists rows. split; [done|].
    apply Forall2_fmap_r, Forall_Forall2_diag, Forall_forall. intros row _.
    split; [done|]. intros Hname. cbn [segment segmentColor Remote.mapUser].
    unfold Js.or_str, getSegmentColor, key_of.
    destruct (segment_name row) as [name|]; [|done].
    rewrite Hname. cbn in Hname. apply negb_false_iff, String.eqb_eq in Hname.
    by subst name.
Qed.

Lemma fetched_users_keep_segments_witness :
  performClustering (map (Remote.mapUser id (λ s, [s])) [bare_row "R1"])
  = map (Remote.mapUser id (λ s, [s])) [bare_row "R1"]
  ∧ Forall (λ user, has_segment user = true)
           (map (Remote.mapUser id (λ s, [s])) [bare_row "R1"])
  ∧ ∃ rows, Returned (mkResponse true (Returned [bare_row "R1"]))
            = Returned (mkResponse true (Returned rows))
      ∧ Forall2 (λ row user,
                   userId user = user_id row
                   ∧ (Js.truthy_str (segment_name row) = false →
                      segment user = Some "Unknown"
                      ∧ segmentColor user = Some "#6b7280"))
                rows (map (Remote.mapUser id (λ s, [s])) [bare_row "R1"]).
Proof.
  apply (fetched_users_keep_segments id (λ s, [s])
           (Returned (mkResponse true (Returned [bare_row "R1"])))).
  reflexivity.
Defined.

(** X20: the engagement rate of a fetched record is always a string, so
    neither default of the local functions ([|| 5] of
    [calculateSimilarity], [|| 0] of [getSegmentStats]) ever applies to
    it: whatever the default, the rate read back is the backend's number
    rounded to two decimals, and 0 for a row without a rate. *)
Theorem fetched_rate_never_defaults capitalize split_trim (row : ApiUser) (d : Q) :
  (Js.parseFloatV
     (Js.or_num (engagementRate (Remote.mapUser capitalize split_trim row)) d)
   == match engagement_rate row with
      | Some q => Js.fixed_value (Js.toFixed 2 q)
      | None => 0
      end)%Q.
Proof.
  cbn [engagementRate Remote.mapUser]. unfold Remote.fixed_or_zero.
  by destruct (engagement_rate row) as [q|].
Qed.

(** Two rows without a rate against two local records without one: the
    first pair is compared at rate 0, the second at rate 5. *)
Example missing_rate_remote_and_local :
  (Js.parseFloatV (Js.or_num (engagementRate (Remote.mapUser id (λ s, [s]) (bare_row "R1"))) 5)
   == 0)%Q
  ∧ (Js.parseFloatV (Js.or_num None 5) == 5)%Q.
Proof. split; reflexivity. Qed.

(** ** The two colour tables of the front end *)

Lemma lookup_entries_cons (k x v : string) (l : list (string * string)) :
  (list_to_map ((k, v) :: l) : gmap string string) !! x
  = if decide (k = x) then Some v else (list_to_map l : gmap string string) !! x.
Proof.
  cbn [list_to_map foldr curry fst snd]. destruct (decide (k = x)) as [->|Hk].
  - by rewrite lookup_insert_eq.
  - by rewrite lookup_insert_ne.
Qed.

Lemma lookup_entries_nil (x : string) :
  (list_to_map [] : gmap string string) !! x = None.
Proof. apply lookup_empty. Qed.

(** X21: the colour helper of the component and the one of
    [apiClient.js] give the same colour for every segment name, known or
    not, except 'Content Creators' and 'Newbies', which only the latter
    knows; a missing name is grey for both. *)
Theorem getSegmentColor_tables (segmentName : option string) :
  (getSegmentColor segmentName = ApiClient.getSegmentColor segmentName
   ↔ segmentName ≠ Some "Content Creators" ∧ segmentName ≠ Some "Newbies")
  ∧ getSegmentColor None = "#6b7280"
  ∧ ApiClient.getSegmentColor None = "#6b7280".
Proof.
  split; [|split; reflexivity].
  destruct segmentName as [k|]; [|split; [by split|reflexivity]].
  unfold getSegmentColor, ApiClient.getSegmentColor, segment_colors,
    ApiClient.segment_colors, key_of.
  change (default "undefined" (Some k)) with k.
  rewrite !lookup_entries_cons, !lookup_entries_nil.
  repeat match goal with
  | |- context [decide (?a = k)] =>
      destruct (decide (a = k)) as [<-|?];
        [vm_compute; split;
           [first [intros [= ?] | by (intros _; split)]
           | first [reflexivity | by intros [? ?]]]|]
  end.
  split; [intros _; split; congruence|reflexivity].
Qed.

(** ** What the synthesized rates imply *)

(** The rate of a synthesized record is [6 + 12 r] for the draw [r] of
    its likes, printed to two decimals. *)
Lemma generateUser_rate (i : nat) rng (j : nat) :
  unit_range rng →
  ∃ f q, followers (generateUser i rng j).1 = Some f
         ∧ Js.parseFloat (engagementRate (generateUser i rng j).1) = Some q
         ∧ (6 <= q <= 18)%Q.
Proof.
  intros Hrng. rewrite generateUser_draws. cbn zeta. cbn [fst followers engagementRate].
  set (j1 := (S j + _)%nat).
  set (f := (Js.floor (rng j1 * 50000) + 100)%Q).
  set (r := rng (S (S (S j1)))).
  exists f. eexists. split; [done|]. split; [reflexivity|].
  cbn [Js.parseFloatV].
  assert (100 <= f)%Q as Hf.
  { pose proof (floor_scaled_range _ 50000 (Hrng j1)). unfold f. lra. }
  assert (0 <= r < 1)%Q as Hr by apply Hrng.
  apply (toFixed_2_between 6 18); [lia|].
  change (inject_Z 6) with 6%Q. change (inject_Z 18) with 18%Q.
  assert ((f * ((5 # 100) + r * (1 # 10)) + f * ((5 # 100) + r * (1 # 10)) * (15 # 100)
           + f * ((5 # 100) + r * (1 # 10)) * (5 # 100)) / f * 100 == 6 + 12 * r)%Q as ->.
  { field. lra. }
  lra.
Qed.

Lemma clusterUser_rate user : engagementRate (clusterUser user) = engagementRate user.
Proof. unfold clusterUser. by destruct (has_segment user). Qed.



(** X23: in a synthesized population the segment is decided by the
    follower count alone: 'Micro-Influencers' from 10000 followers,
    'Highly Engaged' from 5000, 'Growing Accounts' from 2000, 'Active
    Community' from 500, 'Casual Users' below. *)
Theorem synthesized_segments_by_followers (rng : nat → Q) (n : nat) :
  unit_range rng →
  Forall (λ user,
            ∃ f, followers user = Some f
                 ∧ segment user = Some (seg_name (segment_by_followers f))
                 ∧ segmentColor user = Some (seg_color (segment_by_followers f)))
         (performClustering (run (generateUserData None n) rng)).
Proof.
  intros Hrng. unfold performClustering, run, generateUserData.
  change (map clusterUser ?l) with (clusterUser <$> l).
  apply Forall_fmap. apply synthesize_Forall. intros i j. cbn [compose].
  destruct (generateUser_rate i rng j Hrng) as (f & q & Hf & Hq & Hlo & Hhi).
  assert (has_segment (generateUser i rng j).1 = false) as Hnone
    by (by rewrite generateUser_draws).
  rewrite (clusterUser_computed _ Hnone).
  exists f. split; [done|].
  cbn [segment segmentColor with_segment].
  rewrite first_match_cases. unfold meets. rewrite Hf, Hq. cbn [Js.ge].
  cbn [minFollowers minEngagement seg_micro seg_highly seg_engaged
       seg_growing seg_active seg_content seg_casual].
  assert (∀ m, (m <= 6)%Q → Qle_bool m q = true) as Hm
    by (intros m Hle; apply Qle_bool_iff; lra).
  rewrite !Hm by lra. rewrite !andb_true_r. unfold segment_by_followers.
  destruct (Qle_bool 10000 f); [done|].
  destruct (Qle_bool 5000 f); [done|].
  destruct (Qle_bool 2000 f); [done|].
  destruct (Qle_bool 500 f) eqn:H500; [done|].
  destruct (Qle_bool 1000 f) eqn:H1000.
  { apply Qle_bool_iff in H1000.
    assert (Qle_bool 500 f = true) by (apply Qle_bool_iff; lra). congruence. }
  destruct (Qle_bool 0 f); done.
Qed.

Lemma synthesized_segments_by_followers_witness :
  Forall (λ user,
            ∃ f, followers user = Some f
                 ∧ segment user = Some (seg_name (segment_by_followers f))
                 ∧ segmentColor user = Some (seg_color (segment_by_followers f)))
         (performClustering (run (generateUserData None 3) rng_fractional_likes)).
Proof.
  apply (synthesized_segments_by_followers rng_fractional_likes 3).
  intros i. unfold rng_fractional_likes, spike. destruct (i =? 6)%nat; lra.
Defined.

(** X24: the alert of a record tells its engagement rate: 'HIGH
    PERFORMER' above 8, 'GROWING INFLUENCE' above 5 and up to 8,
    'OPTIMIZATION NEEDED' otherwise, also for a record without a rate.
    For a record of a synthesized population, clustered or not, the
    third alert never shows. *)
Theorem getAlertData_synthesized (rng : nat → Q) (n : nat) :
  unit_range rng →
  (∀ user,
     al_title (getAlertData (Some user)) = "OPTIMIZATION NEEDED"
     ↔ ∀ q, Js.parseFloat (engagementRate user) = Some q → (q <= 5)%Q)
  ∧ Forall (λ user,
              al_title (getAlertData (Some user))
                ∈ ["HIGH PERFORMER"; "GROWING INFLUENCE"])
           (run (generateUserData None n) rng
            ++ performClustering (run (generateUserData None n) rng)).
Proof.
  intros Hrng.
  assert (∀ user,
     al_title (getAlertData (Some user)) = "OPTIMIZATION NEEDED"
     ↔ ∀ q, Js.parseFloat (engagementRate user) = Some q → (q <= 5)%Q) as Hthird.
  { intros user. unfold getAlertData. cbn zeta.
    destruct (Js.parseFloat (engagementRate user)) as [q|]; cbn [js_gt];
      [|split; [intros _ q'; discriminate|done]].
    destruct (Qle_bool q 8) eqn:H8; cbn [negb].
    - destruct (Qle_bool q 5) eqn:H5; cbn [negb al_title].
      + split; [|done]. intros _ q' [= <-]. by apply Qle_bool_iff.
      + split; [discriminate|]. intros H. specialize (H q eq_refl).
        apply Qle_bool_iff in H. congruence.
    - cbn [al_title]. split; [discriminate|]. intros H. specialize (H q eq_refl).
      assert (Qle_bool q 8 = true) by (apply Qle_bool_iff; lra). congruence. }
  split; [exact Hthird|].
  assert (∀ user, in_closed_range 6 18 (Js.parseFloat (engagementRate user)) →
            al_title (getAlertData (Some user))
              ∈ ["HIGH PERFORMER"; "GROWING INFLUENCE"]) as Halert.
  { intros user (q & Hq & Hlo & Hhi). unfold getAlertData. cbn zeta.
    rewrite Hq. cbn [js_gt].
    destruct (Qle_bool q 8); cbn [negb]; [|cbn [al_title]; listed].
    assert (Qle_bool q 5 = false) as ->.
    { apply not_true_is_false. rewrite Qle_bool_iff. lra. }
    cbn [negb al_title]. listed. }
  assert (Forall (λ user, in_closed_range 6 18 (Js.parseFloat (engagementRate user)))
            (run (generateUserData None n) rng)) as Hrates.
  { unfold run, generateUserData. apply synthesize_Forall. intros i j.
    destruct (generateUser_rate i rng j Hrng) as (f & q & _ & Hq & Hlo & Hhi).
    by exists q. }
  apply Forall_app. split.
  - eapply Forall_impl; [exact Hrates|]. exact Halert.
  - unfold performClustering. change (map clusterUser ?l) with (clusterUser <$> l).
    apply Forall_fmap. eapply Forall_impl; [exact Hrates|].
    intros user Hu. cbn [compose]. apply Halert. by rewrite clusterUser_rate.
Qed.

Lemma getAlertData_synthesized_witness :
  (∀ user,
     al_title (getAlertData (Some user)) = "OPTIMIZATION NEEDED"
     ↔ ∀ q, Js.parseFloat (engagementRate user) = Some q → (q <= 5)%Q)
  ∧ Forall (λ user,
              al_title (getAlertData (Some user))
                ∈ ["HIGH PERFORMER"; "GROWING INFLUENCE"])
           (run (generateUserData None 3) rng_fractional_likes
            ++ performClustering (run (generateUserData None 3) rng_fractional_likes)).
Proof.
  apply (getAlertData_synthesized rng_fractional_likes 3).
  intros i. unfold rng_fractional_likes, spike. destruct (i =? 6)%nat; lra.
Defined.

(** ** The cards fed with local data *)

Lemma covered_from (a : nat) (cities : list (string * nat)) :
  foldl (λ a entry, a + entry.2) a cities = a + sum_list cities.*2.
Proof.
  revert a. induction cities as [|[c k] r IH]; intros a; cbn [foldl]; [cbn; lia|].
  rewrite IH. cbn. lia.
Qed.

Lemma covered_sum (cities : list (string * nat)) : covered cities = sum_list cities.*2.
Proof. unfold covered. by rewrite covered_from. Qed.

Lemma sum_list_take (n : nat) (l : list nat) : sum_list (take n l) ≤ sum_list l.
Proof.
  revert n. induction l as [|x l IH]; intros [|n]; cbn; try lia.
  specialize (IH n). lia.
Qed.

Lemma bump_sum (c : string) (d : list (string * nat)) :
  sum_list (bump c d).*2 = S (sum_list d.*2).
Proof.
  induction d as [|[k v] r IH]; cbn [bump]; [done|].
  destruct (String.eqb k c); cbn in *; lia.
Qed.

Lemma tally_sum (users : list User) (d : list (string * nat)) :
  sum_list (foldl (λ d user, bump (city_key user) d) d users).*2
  = sum_list d.*2 + length users.
Proof.
  revert d. induction users as [|u users IH]; intros d; cbn [foldl length]; [lia|].
  rewrite IH, bump_sum. lia.
Qed.

Lemma toFixed_0_percent (x : Q) :
  (0 <= x <= 100)%Q → (0 <= Js.fixed_value (Js.toFixed 0 x) <= 100)%Q.
Proof.
  intros [Hlo Hhi]. unfold Js.toFixed, Js.fixed_value, Js.round_half_up.
  cbn [Js.fx_units Js.fx_digits].
  assert (Qle_bool 0 x = true) as -> by (apply Qle_bool_iff; lra).
  change (Js.pow10 0) with 1%Q.
  assert (0 <= Qfloor (x * 1 + (1 # 2)))%Z as Hl.
  { rewrite <- (Qfloor_Z 0). apply Qfloor_resp_le. change (inject_Z 0) with 0%Q. lra. }
  assert (Qfloor (x * 1 + (1 # 2)) < 101)%Z as Hu.
  { rewrite Zlt_Qlt. pose proof (Qfloor_le (x * 1 + (1 # 2))).
    change (inject_Z 101) with 101%Q. lra. }
  set (F := Qfloor _) in *.
  assert (F <= 100)%Z as Hu' by lia.
  rewrite Zle_Qle in Hl, Hu'.
  change (inject_Z 0) with 0%Q in Hl. change (inject_Z 100) with 100%Q in Hu'.
  unfold Qdiv. change (/ 1)%Q with 1%Q. lra.
Qed.

(** X25: fed with the distribution of [getCityDistribution] over a
    non-empty population, the map card shows its six most frequent
    cities; the users it counts as covered are at least one and never
    more than the population, so the coverage is a numeral between 0
    and 100; and when the population lives in at most six cities, every
    user is covered. *)
Theorem coverage_of_local_distribution (users : list User) :
  users ≠ [] →
  let cities := shown_cities (getCityDistribution users) in
  0 < covered cities ≤ length users
  ∧ (∃ f, coverage (getCityDistribution users) users = Some f
          ∧ (0 <= Js.fixed_value f <= 100)%Q)
  ∧ (length (set_values (city_key <$> users)) ≤ 6 → covered cities = length users)
  ∧ Forall (λ entry, entry.2 = city_count entry.1 users ∧ entry.2 ≤ maxCount cities)
           cities.
Proof.
  intros Hne cities.
  destruct (getCityDistribution_sorted users) as (s & Hperm & Hsorted & Hs).
  pose proof (distribution_facts users) as (Hkeys & Hnd & Hd). cbn zeta in *.
  set (d := foldl (λ d user, bump (city_key user) d) [] users) in *.
  assert (sum_list s.*2 = length users) as Hsum.
  { rewrite Hperm. subst d. by rewrite tally_sum. }
  assert (getCityDistribution users ≡ₚ take 8 s) as Hlisted
    by (rewrite Hs; apply own_entries_perm).
  assert (covered cities ≤ length users) as Hle.
  { rewrite covered_sum, <- Hsum. unfold cities, shown_cities.
    change (take 6 ?l).*2 with (snd <$> take 6 l). rewrite fmap_take.
    etrans; [apply sum_list_take|]. rewrite Hlisted, fmap_take.
    apply sum_list_take. }
  assert (Forall (λ p : string * nat, p.2 = city_count p.1 users ∧ 0 < p.2) cities)
    as Hentries.
  { unfold cities, shown_cities. apply Forall_take. rewrite Hlisted.
    apply Forall_take. by rewrite Hperm. }
  assert (0 < covered cities) as Hpos.
  { pose proof (getCityDistribution_nonempty users Hne) as Hne'.
    destruct cities as [|[c k] r] eqn:Hc.
    - unfold cities, shown_cities in Hc.
      destruct (getCityDistribution users); [done|discriminate].
    - apply Forall_cons in Hentries as [[_ Hk] _]. rewrite covered_sum. cbn in *. lia. }
  split; [done|]. split; [|split].
  - unfold coverage. fold cities.
    assert (0 < length users) as Hlen by (destruct users; [done|cbn; lia]).
    rewrite (proj2 (Nat.eqb_neq _ _)) by lia.
    eexists. split; [reflexivity|]. apply toFixed_0_percent.
    set (t := length users) in *.
    assert (0 < inject_Z (Z.of_nat t))%Q as Ht.
    { rewrite <- (Zlt_Qlt 0). lia. }
    assert (0 <= inject_Z (Z.of_nat (covered cities)) <= inject_Z (Z.of_nat t))%Q
      as [Hc0 Hc1].
    { rewrite <- (Zle_Qle 0), <- Zle_Qle. lia. }
    split.
    + apply Qmult_le_0_compat; [|lra]. apply Qle_shift_div_l; lra.
    + assert (inject_Z (Z.of_nat (covered cities)) / inject_Z (Z.of_nat t) <= 1)%Q.
      { apply Qle_shift_div_r; lra. }
      lra.
  - intros Hfew.
    assert (length s ≤ 6) as Hshort
      by (by rewrite Hperm, <- (length_fmap fst), Hkeys).
    rewrite covered_sum, <- Hsum. unfold cities, shown_cities.
    rewrite take_ge by (rewrite Hs, own_entries_length, length_take; lia).
    rewrite Hlisted, take_ge by lia. done.
  - assert (∀ l : list (string * nat), Forall (λ p, p.2 ≤ maxCount l) l) as Hmax.
    { induction l as [|[c k] r IH]; constructor.
      - unfold maxCount. cbn. lia.
      - eapply Forall_impl; [exact IH|]. intros p Hp. unfold maxCount in *. cbn in *. lia. }
    apply Forall_and. split.
    + eapply Forall_impl; [exact Hentries|]. by intros p [? _].
    + apply Hmax.
Qed.

Lemma coverage_of_local_distribution_witness :
  let cities := shown_cities (getCityDistribution [U1; U2; U3]) in
  0 < covered cities ≤ length [U1; U2; U3]
  ∧ (∃ f, coverage (getCityDistribution [U1; U2; U3]) [U1; U2; U3] = Some f
          ∧ (0 <= Js.fixed_value f <= 100)%Q)
  ∧ (length (set_values (city_key <$> [U1; U2; U3])) ≤ 6
     → covered cities = length [U1; U2; U3])
  ∧ Forall (λ entry, entry.2 = city_count entry.1 [U1; U2; U3]
                     ∧ entry.2 ≤ maxCount cities)
           cities.
Proof.
  apply (coverage_of_local_distribution [U1; U2; U3]). discriminate.
Defined.

(** ** The selection list *)

Lemma includes_empty (s : string) : includes s "" = true.
Proof. by destruct s. Qed.

(** X26: the selection list holds at most 50 users, all of them
    matching the query and the segment filter, in the order of the
    population; a matching user is missing from it only when 50 users
    before it match.  With no query and the filter 'All' the list is the
    first 50 users; and every entry of the segment menu, chosen with no
    query, lists at least one user. *)
Theorem filteredUsers_spec (toLowerCase : string → string) (users : list User)
    (searchQuery : string) (filterSegment : option string) :
  toLowerCase "" = "" →
  let shown := Selection.filteredUsers toLowerCase users searchQuery filterSegment in
  length shown ≤ 50
  ∧ sublist shown users
  ∧ Forall (λ user, Selection.matches toLowerCase searchQuery filterSegment user = true)
           shown
  ∧ (∀ user, user ∈ users →
       Selection.matches toLowerCase searchQuery filterSegment user = true →
       user ∉ shown → length shown = 50)
  ∧ Selection.filteredUsers toLowerCase users "" (Some "All") = take 50 users
  ∧ (∀ seg, seg ∈ Selection.uniqueSegments users →
       Selection.filteredUsers toLowerCase users "" seg ≠ []).
Proof.
  intros Hlower shown. unfold shown, Selection.filteredUsers.
  set (P := λ user, Selection.matches toLowerCase searchQuery filterSegment user = true).
  split; [rewrite length_take; lia|]. split; [|split; [|split; [|split]]].
  - etrans; [apply sublist_take|apply sublist_filter].
  - apply Forall_take. apply Forall_forall. intros user Hu.
    by apply list_elem_of_filter in Hu as [? _].
  - intros user Hin Hmatch Hout.
    assert (user ∈ filter P users) as Hf by (by apply list_elem_of_filter).
    rewrite length_take. destruct (decide (50 ≤ length (filter P users))); [lia|].
    rewrite take_ge in Hout by lia. done.
  - f_equal. apply filter_keeps_all, Forall_forall. intros user _.
    unfold Selection.matches. rewrite Hlower, includes_empty.
    by rewrite bool_decide_eq_true_2.
  - intros seg Hseg. unfold Selection.uniqueSegments in Hseg.
    rewrite set_values_elem in Hseg.
    change (map segment users) with (segment <$> users) in Hseg.
    apply list_elem_of_fmap in Hseg as (user & -> & Hin).
    assert (user ∈ filter (λ u, Selection.matches toLowerCase "" (segment user) u = true)
                          users) as Hf.
    { apply list_elem_of_filter. split; [|done].
      unfold Selection.matches. rewrite Hlower, includes_empty.
      rewrite (bool_decide_eq_true_2 (segment user = segment user)) by done.
      by rewrite orb_true_r. }
    destruct (filter _ users) as [|u r]; [by apply elem_of_nil in Hf|]. done.
Qed.

Lemma filteredUsers_spec_witness :
  let shown := Selection.filteredUsers id [U1; U2; U3] "user" (Some "All") in
  length shown ≤ 50
  ∧ sublist shown [U1; U2; U3]
  ∧ Forall (λ user, Selection.matches id "user" (Some "All") user = true) shown
  ∧ (∀ user, user ∈ [U1; U2; U3] →
       Selection.matches id "user" (Some "All") user = true →
       user ∉ shown → length shown = 50)
  ∧ Selection.filteredUsers id [U1; U2; U3] "" (Some "All") = take 50 [U1; U2; U3]
  ∧ (∀ seg, seg ∈ Selection.uniqueSegments [U1; U2; U3] →
       Selection.filteredUsers id [U1; U2; U3] "" seg ≠ []).
Proof.
  apply (filteredUsers_spec id [U1; U2; U3] "user" (Some "All")). reflexivity.
Defined.

(** ** The recommendations card *)

Lemma calculateSimilarity_range (A B : User) : (0 <= calculateSimilarity A B <= 1)%Q.
Proof.
  rewrite calculateSimilarity_terms. split; [|apply Q.le_min_l].
  pose proof (interestSim_range A B) as Hi.
  assert (0 <= ageSim A B <= 1)%Q as Ha by (apply closeness_range; lra).
  assert (0 <= engagementSim A B <= 1)%Q as He by (apply closeness_range; lra).
  apply Q.min_glb; [lra|].
  destruct (cityBonus_cases A B) as [[_ ->]|[_ ->]]; lra.
Qed.

Lemma or_q_zero (q : Q) : (Js.or_q (Some q) 0 == q)%Q.
Proof.
  unfold Js.or_q, Js.truthy_q. destruct (Qeq_bool q 0) eqn:Hq; cbn [negb]; [|done].
  apply Qeq_bool_iff in Hq. by rewrite Hq.
Qed.

Lemma compatibility_mono (a b : Recommendation) :
  (0 <= similarity a <= similarity b)%Q →
  (Js.fixed_value (compatibility (Some a)) <= Js.fixed_value (compatibility (Some b)))%Q.
Proof.
  intros [H0 Hab]. unfold compatibility. cbn [fmap option_fmap option_map].
  pose proof (or_q_zero (similarity a)) as Ha. pose proof (or_q_zero (similarity b)) as Hb.
  set (x := Js.or_q (Some (similarity a)) 0) in *.
  set (y := Js.or_q (Some (similarity b)) 0) in *.
  unfold Js.toFixed, Js.fixed_value, Js.round_half_up. cbn [Js.fx_units Js.fx_digits].
  assert (Qle_bool 0 (x * 100) = true) as -> by (apply Qle_bool_iff; lra).
  assert (Qle_bool 0 (y * 100) = true) as -> by (apply Qle_bool_iff; lra).
  change (Js.pow10 0) with 1%Q.
  assert (Qfloor (x * 100 * 1 + (1 # 2)) <= Qfloor (y * 100 * 1 + (1 # 2)))%Z as Hf
    by (apply Qfloor_resp_le; lra).
  rewrite Zle_Qle in Hf. unfold Qdiv. change (/ 1)%Q with 1%Q. lra.
Qed.

(** X27: fed with the local recommendations of a user, the card lists
    every one of them, its cut at 10 removing nothing; each
    compatibility figure is a whole percentage between 0 and 100; and
    the 'Top match' is the first record of the list, whose figure no
    other record exceeds. *)
Theorem local_recommendations_card (targetUser : User) (allUsers : list User) :
  let recs := getRecommendations_default targetUser allUsers in
  topRecs (Some recs) = recs
  ∧ Forall (λ rec, (0 <= Js.fixed_value (compatibility (Some rec)) <= 100)%Q) recs
  ∧ (∀ top, head recs = Some top →
       top_match (Some recs) = Js.or_str (Some (username (rec_user top))) "N/A"
       ∧ Forall (λ rec, (Js.fixed_value (compatibility (Some rec))
                         <= Js.fixed_value (compatibility (Some top)))%Q) recs)
  ∧ (recs = [] → top_match (Some recs) = "N/A").
Proof.
  intros recs.
  assert (topRecs (Some recs) = recs) as Htop.
  { unfold topRecs, recs, getRecommendations_default, getRecommendations.
    rewrite take_take. done. }
  assert (Forall (λ rec, 0 <= similarity rec <= 1)%Q recs) as Hrange.
  { unfold recs, getRecommendations_default, getRecommendations.
    apply Forall_take. change by_similarity_desc with (descending_by similarity).
    rewrite js_sort_perm. change (map ?f ?l) with (f <$> l).
    apply Forall_fmap, Forall_forall. intros u _. apply calculateSimilarity_range. }
  assert (StronglySorted (λ a b, (similarity b <= similarity a)%Q) recs) as Hsorted.
  { unfold recs, getRecommendations_default, getRecommendations.
    change by_similarity_desc with (descending_by similarity).
    set (s := js_sort _ _).
    assert (StronglySorted (λ a b, (similarity b <= similarity a)%Q) s) as Hs
      by apply js_sort_sorted.
    rewrite <- (take_drop 10 s) in Hs. by apply StronglySorted_app_1_l in Hs. }
  split; [done|]. split; [|split].
  - eapply Forall_impl; [exact Hrange|]. intros rec [H0 H1].
    unfold compatibility. cbn [fmap option_fmap option_map].
    apply toFixed_0_percent. pose proof (or_q_zero (similarity rec)). lra.
  - intros top Hhead. split; [unfold top_match; by rewrite Htop, Hhead|].
    destruct recs as [|r rest]; [done|]. injection Hhead as ->.
    apply StronglySorted_inv in Hsorted as [_ Hrest].
    apply Forall_cons in Hrange as [Hr Hothers].
    constructor; [apply compatibility_mono; lra|].
    apply Forall_forall. intros rec Hin.
    rewrite Forall_forall in Hrest, Hothers.
    apply compatibility_mono. specialize (Hrest rec Hin). specialize (Hothers rec Hin). lra.
  - intros Hnil. unfold top_match. rewrite Htop, Hnil. done.
Qed.
